(** * scrape_quotes.py: a shallow embedding and its verified properties

    The program drives a browser over a paginated site, collects one
    record per quote container and writes the records as JSON lines.

    Modelling decisions.
    - A Python [str] is a Rocq [string] holding its UTF-8 encoding.  Every
      character the program inspects ('/', the JSON escapes, the line feed)
      is below 0x80, and such a byte never occurs inside a multi-byte
      UTF-8 sequence, so the byte-wise functions below coincide with the
      character-wise ones of Python on UTF-8 text.  An unpaired
      surrogate, which a [str] can hold and UTF-8 cannot encode, is held
      as the three bytes Python's [surrogatepass] handler gives it (0xED,
      then a byte in 0xA0..0xBF, then a continuation byte); writing such
      a string to a UTF-8 text file raises [UnicodeEncodeError].
    - [os.environ] is a finite map from names to values.  An assignment
      to it calls the platform's [putenv], which may refuse the value
      ([ValueError] for an embedded NUL, for instance); the [World] fixes
      the outcome of [putenv] for every name and value.
    - Faults of the operating system while a file is written (no space,
      no permission) are outside the model.
    - The browser is an external collaborator.  Every call the program
      makes on it has an outcome ([res]): a value or a raised exception.
      A [World] fixes these outcomes; the theorems quantify over it.
    - [while True] is a fixpoint over a fuel argument; running out of fuel
      is [None] and stands for a crawl that has not finished yet.
    - Console output ([print]) is not modelled: the console is taken to
      accept every text. *)

From stdpp Require Import gmap strings list fin_maps.
From Stdlib Require Import Ascii String.

Open Scope string_scope.
Open Scope nat_scope.

(** ** Exceptions and outcomes *)

(** The exception classes the program distinguishes.  [OtherException]
    stands for any other subclass of [Exception]; [KeyboardInterrupt]
    stands for the [BaseException]s that [except Exception] lets through. *)
Inductive exn : Type :=
  | TimeoutException
  | NoSuchElementException
  | RuntimeError (msg : string)
  | OtherException (cls : string)
  | KeyboardInterrupt.

Inductive res (A : Type) : Type :=
  | Ret (a : A)
  | Raise (e : exn).
Arguments Ret {A} a.
Arguments Raise {A} e.

Definition is_Exception (e : exn) : bool :=
  match e with KeyboardInterrupt => false | _ => true end.

Definition is_TimeoutException (e : exn) : bool :=
  match e with TimeoutException => true | _ => false end.

Definition is_NoSuchElementException (e : exn) : bool :=
  match e with NoSuchElementException => true | _ => false end.

Module Res.
Definition bind {A B} (r : res A) (k : A -> res B) : res B :=
  match r with Ret a => k a | Raise e => Raise e end.

(** [try: body / except <class>: handler] *)
Definition try_except {A} (body : res A) (catches : exn -> bool)
    (handler : res A) : res A :=
  match body with
  | Ret a => Ret a
  | Raise e => if catches e then handler else Raise e
  end.

(** [[f(x) for x in l]], evaluated left to right. *)
Fixpoint traverse {A B} (f : A -> res B) (l : list A) : res (list B) :=
  match l with
  | [] => Ret []
  | x :: l' =>
      bind (f x) (fun y => bind (traverse f l') (fun ys => Ret (y :: ys)))
  end.
End Res.

Declare Scope res_scope.
Delimit Scope res_scope with res.
Notation "x <- c ;; k" := (Res.bind c (fun x => k))
  (at level 100, c at next level, right associativity) : res_scope.

(** ** Python truthiness of [Optional[str]] *)

Definition truthy (o : option string) : bool :=
  match o with
  | Some s => negb (String.eqb s "")
  | None => false
  end.

(** [a or b] *)
Definition por (a b : option string) : option string :=
  if truthy a then a else b.

(** [s.rstrip('/')] *)
Fixpoint rstrip_slash (s : string) : string :=
  match s with
  | EmptyString => EmptyString
  | String c s' =>
      match rstrip_slash s' with
      | EmptyString => if Ascii.eqb c "/" then EmptyString else String c EmptyString
      | r => String c r
      end
  end.

(** ** The process environment *)

Abbreviation Env := (gmap string string).

(** The proxy lookup of the main block:
    [os.environ.get("PROXY_URL") or os.environ.get("HTTP_PROXY")
       or os.environ.get("HTTPS_PROXY")]. *)
Definition proxy_env (env : Env) : option string :=
  por (por (env !! "PROXY_URL") (env !! "HTTP_PROXY")) (env !! "HTTPS_PROXY").

(** ** The page as the program sees it *)

(** A DOM element: its [.text] and its [get_attribute(name)]
    ([None] when the attribute is missing). *)
Record Element : Type := {
  text : res string;
  get_attribute : string -> res (option string)
}.

(** A [div class='quote'] container, seen through the three relative
    XPath queries the program runs on it. *)
Record Quote : Type := {
  span_text : res Element;          (* find_element  .//span[@class='text']   *)
  small_author : res Element;       (* find_element  .//small[@class='author'] *)
  tag_links : res (list Element)    (* find_elements .//div[@class='tags']/a[@class='tag'] *)
}.

(** A loaded document, seen through the calls made on the driver. *)
Record Page : Type := {
  wait_quotes : res unit;           (* wait.until(presence_of_all_elements_located(...)) *)
  div_quotes : res (list Quote);    (* driver.find_elements //div[@class='quote'] *)
  li_next_a : res Element;          (* driver.find_element  //li[@class='next']/a *)
  current_url : res string          (* driver.current_url *)
}.

(** Everything outside the program. *)
Record World : Type := {
  fake_useragent : res string;      (* UserAgent().random *)
  random_choice : nat;              (* the index random.choice draws *)
  selenium_manager : res unit;      (* webdriver.Chrome(options=options) *)
  os_name : string;                 (* os.name *)
  path_exists : string -> bool;     (* Path(p).exists() *)
  local_chrome : res unit;          (* webdriver.Chrome(service=service, options=options) *)
  web : nat -> string -> res Page;  (* driver.get(url), for the n-th navigation *)
  putenv : string -> string -> res unit  (* os.putenv(name, value), as os.environ calls it *)
}.

(** ** Writing to the process environment *)

(** [os.environ[k] = v]: nothing is stored when [putenv] refuses. *)
Definition environ_set (W : World) (k v : string) (env : Env) : res unit * Env :=
  match putenv W k v with
  | Ret _ => (Ret tt, <[k := v]> env)
  | Raise e => (Raise e, env)
  end.

(** [os.environ.setdefault(k, v)] *)
Definition setdefault (W : World) (k v : string) (env : Env) : res unit * Env :=
  match env !! k with
  | Some _ => (Ret tt, env)
  | None => environ_set W k v env
  end.

(** [_apply_proxy_env] *)
Definition _apply_proxy_env (W : World) (proxy_url : option string) (env : Env)
    : res unit * Env :=
  if negb (truthy proxy_url) then (Ret tt, env)
  else
    match proxy_url with
    | None => (Ret tt, env)
    | Some p =>
        match environ_set W "HTTP_PROXY" p env with
        | (Raise e, env) => (Raise e, env)
        | (Ret _, env) =>
            match environ_set W "HTTPS_PROXY" p env with
            | (Raise e, env) => (Raise e, env)
            | (Ret _, env) => setdefault W "NO_PROXY" "localhost,127.0.0.1" env
            end
        end
    end.

(** ** Session construction *)

Definition fallback_list : list string :=
  [ "Mozilla/5.0 (Windows NT 10.0; Win64; x64) AppleWebKit/537.36 (KHTML, like Gecko) Chrome/140.0.0.0 Safari/537.36";
    "Mozilla/5.0 (Windows NT 10.0; Win64; x64; rv:131.0) Gecko/20100101 Firefox/131.0";
    "Mozilla/5.0 (Macintosh; Intel Mac OS X 10_15_7) AppleWebKit/605.1.15 (KHTML, like Gecko) Version/17.6 Safari/605.1.15" ].

(** [_random_user_agent] *)
Definition _random_user_agent (W : World) : res string :=
  Res.try_except (fake_useragent W) is_Exception
    (Ret (List.nth (random_choice W mod List.length fallback_list) fallback_list "")).

(** [_chrome_options]: the argument list of the [ChromeOptions] object. *)
Definition _chrome_options (user_agent : string) (proxy_url : option string)
    : list string :=
  [ "--user-agent=" ++ user_agent;
    "--disable-blink-features=AutomationControlled";
    "--start-maximized";
    "--no-sandbox";
    "--disable-dev-shm-usage";
    "--headless=new" ]
  ++ (if truthy proxy_url
      then match proxy_url with
           | Some p => ["--proxy-server=" ++ p]
           | None => []
           end
      else []).

(** The driver object: the options it was started with and, for a local
    chromedriver, the executable path of its service. *)
Record Driver : Type := {
  options : list string;
  service : option string
}.

Definition driver_not_found : string :=
  "Não foi possível obter o ChromeDriver automaticamente e nenhum driver local foi encontrado. "
  ++ "Baixe o arquivo compatível com seu Chrome 140 e salve em 'drivers/chromedriver.exe' "
  ++ "ou defina a variável de ambiente CHROMEDRIVER apontando para o executável.".

(** [_build_chrome].  The environment is threaded through because
    [_apply_proxy_env] writes to it, or fails, before anything else. *)
Definition _build_chrome (W : World) (user_agent : string)
    (proxy_url : option string) (env : Env) : res Driver * Env :=
  match _apply_proxy_env W proxy_url env with
  | (Raise e, env) => (Raise e, env)
  | (Ret _, env) =>
  let options := _chrome_options user_agent proxy_url in
  match selenium_manager W with
  | Ret _ => (Ret {| options := options; service := None |}, env)
  | Raise e =>
      if negb (is_Exception e) then (Raise e, env)
      else
        let local_driver :=
          if truthy (env !! "CHROMEDRIVER")
          then default "" (env !! "CHROMEDRIVER")
          else if String.eqb (os_name W) "nt"
               then "drivers\chromedriver.exe"
               else "drivers/chromedriver" in
        if path_exists W local_driver
        then match local_chrome W with
             | Ret _ => (Ret {| options := options; service := Some local_driver |}, env)
             | Raise e' => (Raise e', env)
             end
        else (Raise (RuntimeError driver_not_found), env)
  end
  end.

(** ** Records and the mutable store *)

(** The dict [{"quote": ..., "author": ..., "tags": [...]}]. *)
Record Item : Type := {
  quote : string;
  author : string;
  tags : list string
}.

(** What the crawl mutates: the result list ([all_items], [data] in
    [scrape_first_page]), which is appended to in place and therefore
    keeps its contents when an exception unwinds the loop, and the
    session: the documents loaded so far, oldest first, and the number of
    [driver.quit()] calls. *)
Record Store : Type := {
  all_items : list Item;
  history : list Page;
  quit_calls : nat
}.

Definition empty_store : Store :=
  {| all_items := []; history := []; quit_calls := 0 |}.

(** Code that may raise and that keeps its writes when it does. *)
Definition M (A : Type) : Type := Store -> res A * Store.

Module M.
Definition ret {A} (a : A) : M A := fun st => (Ret a, st).

Definition bind {A B} (c : M A) (k : A -> M B) : M B :=
  fun st =>
    match c st with
    | (Ret a, st') => k a st'
    | (Raise e, st') => (Raise e, st')
    end.

Definition lift {A} (r : res A) : M A := fun st => (r, st).

Definition try_except {A} (body : M A) (catches : exn -> bool)
    (handler : M A) : M A :=
  fun st =>
    match body st with
    | (Ret a, st') => (Ret a, st')
    | (Raise e, st') => if catches e then handler st' else (Raise e, st')
    end.
End M.

Declare Scope M_scope.
Delimit Scope M_scope with M.
Notation "x <- c ;; k" := (M.bind c (fun x => k))
  (at level 100, c at next level, right associativity) : M_scope.

(** [all_items.append(item)] *)
Definition append (item : Item) : M unit :=
  fun st =>
    (Ret tt, {| all_items := all_items st ++ [item];
                history := history st;
                quit_calls := quit_calls st |}).

(** [driver.get(url)]: on success the document becomes the current one. *)
Definition driver_get (W : World) (url : string) : M Page :=
  fun st =>
    match web W (List.length (history st)) url with
    | Ret p =>
        (Ret p, {| all_items := all_items st;
                   history := history st ++ [p];
                   quit_calls := quit_calls st |})
    | Raise e => (Raise e, st)
    end.

(** [driver.quit()] *)
Definition driver_quit : M unit :=
  fun st =>
    (Ret tt, {| all_items := all_items st;
                history := history st;
                quit_calls := S (quit_calls st) |}).

(** ** Extraction *)

(** The body of the inner [try]: the three reads that build one dict. *)
Definition read_quote (q : Quote) : res Item :=
  (e <- span_text q ;;
   quote_text <- text e ;;
   a <- small_author q ;;
   author <- text a ;;
   tag_elements <- tag_links q ;;
   tags <- Res.traverse text tag_elements ;;
   Ret {| quote := quote_text; author := author; tags := tags |})%res.

(** [for idx, q in enumerate(quotes, start=1): try: ... except
    NoSuchElementException: ...].  The two functions of the source carry
    the same loop (lines 99-109 and 147-156); they differ in what they
    print. *)
Fixpoint for_quotes (quotes : list Quote) : M unit :=
  match quotes with
  | [] => M.ret tt
  | q :: rest =>
      (_ <- M.try_except (item <- M.lift (read_quote q) ;; append item)
             is_NoSuchElementException (M.ret tt) ;;
       for_quotes rest)%M
  end.

(** ** Pagination *)

(** Lines 159-169: [Some url] is the new [current_url], [None] is [break]. *)
Definition seek_next (p : Page) : res (option string) :=
  Res.try_except
    (next_link <- li_next_a p ;;
     next_href <- get_attribute next_link "href" ;;
     next_href <-
       (if negb (truthy next_href)
        then (h <- get_attribute next_link "href" ;;
              if truthy h then Ret h else get_attribute next_link "data-href")
        else Ret next_href) ;;
     current <-
       (if truthy next_href then Ret (default "" next_href)
        else (u <- current_url p ;; Ret (rstrip_slash u ++ "/page/2/"))) ;;
     Ret (Some current))%res
    is_NoSuchElementException
    (Ret None).

(** One turn of [while True]. *)
Definition iteration (W : World) (current : string) : M (option string) :=
  (p <- driver_get W current ;;
   _ <- M.lift (wait_quotes p) ;;
   quotes <- M.lift (div_quotes p) ;;
   _ <- for_quotes quotes ;;
   M.lift (seek_next p))%M.

(** [while True: ...]: [Ret tt] is leaving through [break]. *)
Fixpoint pagination_loop (fuel : nat) (W : World) (current : string)
    (st : Store) : option (res unit * Store) :=
  match fuel with
  | 0 => None
  | S fuel' =>
      match iteration W current st with
      | (Ret (Some next), st') => pagination_loop fuel' W next st'
      | (Ret None, st') => Some (Ret tt, st')
      | (Raise e, st') => Some (Raise e, st')
      end
  end.

(** What a call leaves behind: its result (a returned list or the
    exception that reaches the caller), the environment, the documents the
    session loaded and how often the session was released. *)
Record Run : Type := {
  returned : res (list Item);
  environ : Env;
  pages : list Page;
  released : nat
}.

(** [try: body / except TimeoutException: ... / finally: driver.quit()]
    followed by [return all_items]. *)
Definition finish (env : Env) (outcome : res unit * Store) : Run :=
  let '(r, st) := outcome in
  let '(_, st) := driver_quit st in
  {| returned :=
       match r with
       | Ret _ => Ret (all_items st)
       | Raise e => if is_TimeoutException e then Ret (all_items st) else Raise e
       end;
     environ := env;
     pages := history st;
     released := quit_calls st |}.

(** A call that ends before a session exists. *)
Definition no_session (e : exn) (env : Env) : Run :=
  {| returned := Raise e; environ := env; pages := []; released := 0 |}.

(** [scrape_all_pages] *)
Definition scrape_all_pages (fuel : nat) (W : World) (start_url : string)
    (proxy_url : option string) (env : Env) : option Run :=
  match _random_user_agent W with
  | Raise e => Some (no_session e env)
  | Ret user_agent =>
      match _build_chrome W user_agent proxy_url env with
      | (Raise e, env) => Some (no_session e env)
      | (Ret driver, env) =>
          finish env <$> pagination_loop fuel W start_url empty_store
      end
  end.

(** [scrape_first_page] *)
Definition scrape_first_page (W : World) (url : string)
    (proxy_url : option string) (env : Env) : Run :=
  match _random_user_agent W with
  | Raise e => no_session e env
  | Ret user_agent =>
      match _build_chrome W user_agent proxy_url env with
      | (Raise e, env) => no_session e env
      | (Ret driver, env) =>
          finish env
            ((p <- driver_get W url ;;
              _ <- M.lift (wait_quotes p) ;;
              quotes <- M.lift (div_quotes p) ;;
              for_quotes quotes)%M empty_store)
      end
  end.

(** ** Result writer *)

Definition dquote : ascii := "034"%char.
Definition bslash : ascii := "092"%char.
Definition LF : ascii := "010"%char.
Definition CR : ascii := "013"%char.

Definition hex_digit (n : nat) : ascii :=
  List.nth n (list_ascii_of_string "0123456789abcdef") "0"%char.

(** The replacement [json.encoder.ESCAPE_DCT] holds for one character
    matched by [json.encoder.ESCAPE]: the double quote, the backslash and
    the control characters below 0x20, the latter as their short escape
    when there is one and as a four-digit lower-case hexadecimal escape
    otherwise.  Any other character stays as it is
    ([ensure_ascii=False]). *)
Definition escape_char (c : ascii) : string :=
  let n := nat_of_ascii c in
  if Ascii.eqb c dquote then String bslash (String dquote "")
  else if Ascii.eqb c bslash then String bslash (String bslash "")
  else if n =? 8 then "\b"
  else if n =? 12 then "\f"
  else if n =? 10 then "\n"
  else if n =? 13 then "\r"
  else if n =? 9 then "\t"
  else if n <? 32 then "\u00" ++ String (hex_digit (n / 16)) (String (hex_digit (n mod 16)) "")
  else String c "".

Fixpoint escape (s : string) : string :=
  match s with
  | EmptyString => EmptyString
  | String c s' => escape_char c ++ escape s'
  end.

(** [json.encoder.py_encode_basestring] *)
Definition encode_basestring (s : string) : string :=
  String dquote (escape s ++ String dquote "").

(** A list of strings with the default item separator [", "]. *)
Fixpoint encode_items (l : list string) : string :=
  match l with
  | [] => ""
  | [s] => encode_basestring s
  | s :: l' => encode_basestring s ++ ", " ++ encode_items l'
  end.

Definition encode_list (l : list string) : string :=
  match l with
  | [] => "[]"
  | _ => "[" ++ encode_items l ++ "]"
  end.

(** [json.dumps(obj, ensure_ascii=False)] for the dict of an [Item]: keys
    in insertion order, separators [", "] and [": "]. *)
Definition json_dumps (obj : Item) : string :=
  "{" ++ encode_basestring "quote" ++ ": " ++ encode_basestring (quote obj)
  ++ ", " ++ encode_basestring "author" ++ ": " ++ encode_basestring (author obj)
  ++ ", " ++ encode_basestring "tags" ++ ": " ++ encode_list (tags obj)
  ++ "}".

(** Whether the strict UTF-8 codec encodes a text: it refuses a
    surrogate, that is the byte 0xED followed by a byte in 0xA0..0xBF.
    [after_ed] tells whether the byte before was 0xED. *)
Fixpoint encodable_from (after_ed : bool) (s : string) : bool :=
  match s with
  | EmptyString => true
  | String c s' =>
      let n := nat_of_ascii c in
      if after_ed && (160 <=? n) && (n <=? 191) then false
      else encodable_from (n =? 237) s'
  end.

Definition encodable (s : string) : bool := encodable_from false s.

(** [os.linesep] *)
Definition linesep (W : World) : string :=
  if String.eqb (os_name W) "nt" then String CR (String LF "") else String LF "".

(** What a text file opened with the default [newline] does to the line
    feeds of a text that is written to it. *)
Fixpoint translate_newlines (sep : string) (s : string) : string :=
  match s with
  | EmptyString => EmptyString
  | String c s' =>
      if Ascii.eqb c LF then sep ++ translate_newlines sep s'
      else String c (translate_newlines sep s')
  end.

(** [f.write(s)] on a file opened with [encoding="utf-8"]: the text is
    encoded as a whole, so either all of it reaches the file or none of
    it does and [UnicodeEncodeError] is raised. *)
Definition file_write (W : World) (s : string) (f : string) : res unit * string :=
  if encodable s
  then (Ret tt, f ++ translate_newlines (linesep W) s)
  else (Raise (OtherException "UnicodeEncodeError"), f).

(** The [for] loop of [save_to_txt] on the text written so far. *)
Fixpoint write_items (W : World) (items : list Item) (f : string)
    : res unit * string :=
  match items with
  | [] => (Ret tt, f)
  | obj :: rest =>
      match file_write W (json_dumps obj ++ String LF "") f with
      | (Ret _, f) => write_items W rest f
      | (Raise e, f) => (Raise e, f)
      end
  end.

(** [save_to_txt]: [open(path, "w")] truncates, the loop writes one line
    per item, and leaving the [with] block closes the file with what was
    written, also when the loop raised.  The file system maps a path to
    the text of the file. *)
Definition save_to_txt (W : World) (items : list Item) (path : string)
    (fs : gmap string string) : res unit * gmap string string :=
  let '(r, f) := write_items W items "" in
  (r, <[path := f]> fs).

(** The main block: the proxy comes from the environment, the crawl
    starts at the fixed address and its result goes to [resposta.txt];
    an exception of the crawl ends the program before the file is
    opened.  Beside the run of the crawl, the result gives how the
    program ends and the files it leaves. *)
Definition main (fuel : nat) (W : World) (env : Env)
    (fs : gmap string string)
    : option (Run * (res unit * gmap string string)) :=
  run ← scrape_all_pages fuel W "https://quotes.toscrape.com/" (proxy_env env) env;
  match returned run with
  | Ret results => Some (run, save_to_txt W results "resposta.txt" fs)
  | Raise e => Some (run, (Raise e, fs))
  end.

(** ** Reading the file back

    The reader the round-trip property speaks of is not part of the
    program.  It is defined here after Python's own reading side: a text
    file iterated line by line (universal newlines), each line given to a
    JSON parser for the subset of JSON the writer can produce (strings,
    arrays, objects), and the three fields taken from the parsed object. *)

(** Iterating over a text file: each line keeps its terminator, and
    [\r] and [\r\n] are read as [\n]. *)
Fixpoint readlines (s : string) : list string :=
  match s with
  | EmptyString => []
  | String c s' =>
      if Ascii.eqb c LF then String LF "" :: readlines s'
      else if Ascii.eqb c CR then
        match s' with
        | String c' s'' =>
            if Ascii.eqb c' LF then String LF "" :: readlines s''
            else String LF "" :: readlines s'
        | EmptyString => [String LF ""]
        end
      else
        match readlines s' with
        | [] => [String c ""]
        | l :: ls => String c l :: ls
        end
  end.

Inductive token : Type :=
  | LBrace | RBrace | LBrack | RBrack | Colon | Comma
  | TStr (s : string).

Definition hex_value (c : ascii) : option N :=
  (let n := N_of_ascii c in
  if (48 <=? n) && (n <=? 57) then Some (n - 48)
  else if (97 <=? n) && (n <=? 102) then Some (n - 87)
  else if (65 <=? n) && (n <=? 70) then Some (n - 55)
  else None)%N.

(** UTF-8 for a code point of the basic plane; surrogates are refused. *)
Definition utf8 (n : N) : option string :=
  (if n <? 128 then Some (String (ascii_of_N n) "")
  else if n <? 2048 then
    Some (String (ascii_of_N (192 + n / 64))
         (String (ascii_of_N (128 + n mod 64)) ""))
  else if (55296 <=? n) && (n <? 57344) then None
  else
    Some (String (ascii_of_N (224 + n / 4096))
         (String (ascii_of_N (128 + (n / 64) mod 64))
         (String (ascii_of_N (128 + n mod 64)) ""))))%N.

(** Puts decoded text in front of the string literal that is being read. *)
Definition push (s : string) (r : option (list token)) : option (list token) :=
  match r with
  | Some (TStr t :: ts) => Some (TStr (s ++ t) :: ts)
  | _ => None
  end.

Definition simple_escape (c : ascii) : option ascii :=
  let n := nat_of_ascii c in
  if Ascii.eqb c dquote then Some dquote
  else if Ascii.eqb c bslash then Some bslash
  else if Ascii.eqb c "/" then Some "/"%char
  else if Ascii.eqb c "b" then Some "008"%char
  else if Ascii.eqb c "f" then Some "012"%char
  else if Ascii.eqb c "n" then Some LF
  else if Ascii.eqb c "r" then Some CR
  else if Ascii.eqb c "t" then Some "009"%char
  else None.

Definition is_space (c : ascii) : bool :=
  let n := nat_of_ascii c in
  (n =? 32) || (n =? 9) || (n =? 10) || (n =? 13).

(** The scanner; [in_string] tells whether a string literal is open. *)
Fixpoint lex (in_string : bool) (s : string) : option (list token) :=
  match s with
  | EmptyString => if in_string then None else Some []
  | String c s' =>
      if in_string then
        if Ascii.eqb c dquote then cons (TStr "") <$> lex false s'
        else if Ascii.eqb c bslash then
          match s' with
          | String e s'' =>
              match simple_escape e with
              | Some x => push (String x "") (lex true s'')
              | None =>
                  if Ascii.eqb e "u" then
                    match s'' with
                    | String h1 (String h2 (String h3 (String h4 s5))) =>
                        a ← hex_value h1; b ← hex_value h2;
                        c ← hex_value h3; d ← hex_value h4;
                        bytes ← utf8 (((a * 16 + b) * 16 + c) * 16 + d)%N;
                        push bytes (lex true s5)
                    | _ => None
                    end
                  else None
              end
          | EmptyString => None
          end
        else if nat_of_ascii c <? 32 then None
        else push (String c "") (lex true s')
      else
        if is_space c then lex false s'
        else if Ascii.eqb c dquote then lex true s'
        else if Ascii.eqb c "{" then cons LBrace <$> lex false s'
        else if Ascii.eqb c "}" then cons RBrace <$> lex false s'
        else if Ascii.eqb c "[" then cons LBrack <$> lex false s'
        else if Ascii.eqb c "]" then cons RBrack <$> lex false s'
        else if Ascii.eqb c ":" then cons Colon <$> lex false s'
        else if Ascii.eqb c "," then cons Comma <$> lex false s'
        else None
  end.

#[warnings="-register-all"]
Inductive json : Type :=
  | JString (s : string)
  | JArray (l : list json)
  | JObject (l : list (string * json)).

Fixpoint parse_value (fuel : nat) (ts : list token)
    : option (json * list token) :=
  match fuel with
  | 0 => None
  | S n =>
      match ts with
      | TStr s :: r => Some (JString s, r)
      | LBrack :: RBrack :: r => Some (JArray [], r)
      | LBrack :: r => '(vs, r') ← parse_elements n r; Some (JArray vs, r')
      | LBrace :: RBrace :: r => Some (JObject [], r)
      | LBrace :: r => '(ms, r') ← parse_members n r; Some (JObject ms, r')
      | _ => None
      end
  end
with parse_elements (fuel : nat) (ts : list token)
    : option (list json * list token) :=
  match fuel with
  | 0 => None
  | S n =>
      '(v, r) ← parse_value n ts;
      match r with
      | Comma :: r' => '(vs, r'') ← parse_elements n r'; Some (v :: vs, r'')
      | RBrack :: r' => Some ([v], r')
      | _ => None
      end
  end
with parse_members (fuel : nat) (ts : list token)
    : option (list (string * json) * list token) :=
  match fuel with
  | 0 => None
  | S n =>
      match ts with
      | TStr k :: Colon :: r =>
          '(v, r1) ← parse_value n r;
          match r1 with
          | Comma :: r2 => '(ms, r3) ← parse_members n r2; Some ((k, v) :: ms, r3)
          | RBrace :: r2 => Some ([(k, v)], r2)
          | _ => None
          end
      | _ => None
      end
  end.

(** [json.loads]: one value, nothing after it. *)
Definition json_loads (s : string) : option json :=
  ts ← lex false s;
  '(v, rest) ← parse_value (2 * List.length ts + 2) ts;
  match rest with [] => Some v | _ => None end.

(** [d[k]] on the dict of a parsed object: the last member named [k]. *)
Fixpoint member (k : string) (ms : list (string * json)) : option json :=
  match ms with
  | [] => None
  | (k', v) :: ms' =>
      match member k ms' with
      | Some v' => Some v'
      | None => if String.eqb k k' then Some v else None
      end
  end.

Definition as_string (v : json) : option string :=
  match v with JString s => Some s | _ => None end.

Definition as_strings (v : json) : option (list string) :=
  match v with JArray l => mapM as_string l | _ => None end.

Definition item_of_json (v : json) : option Item :=
  match v with
  | JObject ms =>
      q ← member "quote" ms ≫= as_string;
      a ← member "author" ms ≫= as_string;
      t ← member "tags" ms ≫= as_strings;
      Some {| quote := q; author := a; tags := t |}
  | _ => None
  end.

Definition parse_line (line : string) : option Item :=
  json_loads line ≫= item_of_json.

Definition read_items (content : string) : option (list Item) :=
  mapM parse_line (readlines content).

(** ** Vocabulary of the properties *)

(** An environment variable, or an attribute, that is missing or empty. *)
Definition blank (o : option string) : Prop := o = None \/ o = Some "".

(** The records of a document: one for every container whose three reads
    succeed, in the order of the containers. *)
Definition container_item (q : Quote) : option Item :=
  match read_quote q with
  | Ret item => Some item
  | Raise _ => None
  end.

Definition page_records (p : Page) : list Item :=
  match div_quotes p with
  | Ret quotes => omap container_item quotes
  | Raise _ => []
  end.

(** A valid container: the text and the author are there and every tag
    link has a text.  [item] is what the container shows. *)
Definition valid_container (q : Quote) (item : Item) : Prop :=
  exists e a links,
    span_text q = Ret e /\ text e = Ret (quote item) /\
    small_author q = Ret a /\ text a = Ret (author item) /\
    tag_links q = Ret links /\
    Forall2 (fun l t => text l = Ret t) links (tags item).

(** A container without its text, or with its text and without its
    author. *)
Definition lacks_sub_element (q : Quote) : Prop :=
  span_text q = Raise NoSuchElementException \/
  (exists e s, span_text q = Ret e /\ text e = Ret s /\
               small_author q = Raise NoSuchElementException).

(** A container that the inner [try] deals with: reading it gives a record
    or raises [NoSuchElementException]. *)
Definition harmless (q : Quote) : Prop :=
  match read_quote q with
  | Ret _ => True
  | Raise e => e = NoSuchElementException
  end.

(** A document whose containers appear in time and are all dealt with. *)
Definition extracts (p : Page) : Prop :=
  wait_quotes p = Ret tt /\
  exists quotes, div_quotes p = Ret quotes /\ Forall harmless quotes.

(** [Walk W i u ps u']: from the [i]-th navigation on, starting at address
    [u], the documents [ps] are loaded one after the other, each is
    extracted and each names a next address; [u'] is the address after
    the last of them. *)
Inductive Walk (W : World) : nat -> string -> list Page -> string -> Prop :=
  | Walk_here i u : Walk W i u [] u
  | Walk_step i u p u' ps u'' :
      web W i u = Ret p ->
      extracts p ->
      seek_next p = Ret (Some u') ->
      Walk W (S i) u' ps u'' ->
      Walk W i u (p :: ps) u''.

(** The bounded wait expires while the [i]-th navigation loads [u]. *)
Definition load_times_out (W : World) (i : nat) (u : string) : Prop :=
  web W i u = Raise TimeoutException \/
  (exists p, web W i u = Ret p /\ wait_quotes p = Raise TimeoutException).

(** The session as [scrape_first_page] and [scrape_all_pages] obtain it. *)
Definition session_starts (W : World) (proxy_url : option string)
    (env env' : Env) : Prop :=
  exists user_agent driver,
    _random_user_agent W = Ret user_agent /\
    _build_chrome W user_agent proxy_url env = (Ret driver, env').

(** The store after more records were appended, after one more document
    was loaded. *)
Definition add_items (l : list Item) (st : Store) : Store :=
  {| all_items := all_items st ++ l;
     history := history st;
     quit_calls := quit_calls st |}.

Definition add_pages (ps : list Page) (st : Store) : Store :=
  {| all_items := all_items st;
     history := history st ++ ps;
     quit_calls := quit_calls st |}.

(** [n] slashes, and whether a text ends with one. *)
Fixpoint slashes (n : nat) : string :=
  match n with
  | 0 => ""
  | S n' => String "/" (slashes n')
  end.

Fixpoint ends_with_slash (s : string) : bool :=
  match s with
  | EmptyString => false
  | String c EmptyString => Ascii.eqb c "/"
  | String _ s' => ends_with_slash s'
  end.

(** The tokens of a list of strings between its brackets. *)
Fixpoint item_tokens (l : list string) : list token :=
  match l with
  | [] => []
  | [s] => [TStr s]
  | s :: l' => TStr s :: Comma :: item_tokens l'
  end.

(** The tokens of the line written for a record. *)
Definition record_tokens (obj : Item) : list token :=
  [LBrace; TStr "quote"; Colon; TStr (quote obj); Comma;
   TStr "author"; Colon; TStr (author obj); Comma;
   TStr "tags"; Colon; LBrack]
  ++ item_tokens (tags obj) ++ [RBrack; RBrace].

(** A text without line terminators. *)
Fixpoint no_newline (s : string) : bool :=
  match s with
  | EmptyString => true
  | String c s' => negb (Ascii.eqb c LF) && negb (Ascii.eqb c CR) && no_newline s'
  end.

(** [os.environ] takes every assignment [_apply_proxy_env] makes for the
    proxy [p]. *)
Definition proxy_accepted (W : World) (p : string) (env : Env) : Prop :=
  putenv W "HTTP_PROXY" p = Ret tt /\
  putenv W "HTTPS_PROXY" p = Ret tt /\
  (env !! "NO_PROXY" = None ->
   putenv W "NO_PROXY" "localhost,127.0.0.1" = Ret tt).

(** A record all of whose strings the UTF-8 codec encodes. *)
Definition item_encodable (obj : Item) : bool :=
  encodable (quote obj) && encodable (author obj) && forallb encodable (tags obj).

(** The records before the first one the codec refuses. *)
Fixpoint encodable_prefix (items : list Item) : list Item :=
  match items with
  | [] => []
  | obj :: rest =>
      if item_encodable obj then obj :: encodable_prefix rest else []
  end.

(** One line for each record, each ended by [os.linesep]. *)
Definition lines_of (W : World) (items : list Item) : string :=
  fold_right (fun obj rest => json_dumps obj ++ linesep W ++ rest) "" items.

(** A text with an embedded NUL. *)
Fixpoint has_nul (s : string) : bool :=
  match s with
  | EmptyString => false
  | String c s' => Ascii.eqb c "000" || has_nul s'
  end.

(** ** Sample inputs *)

Module Sample.
Definition element (s : string) : Element :=
  {| text := Ret s; get_attribute := fun _ => Ret None |}.

Definition link (href data_href : option string) : Element :=
  {| text := Ret "Next";
     get_attribute := fun k =>
       if String.eqb k "href" then Ret href
       else if String.eqb k "data-href" then Ret data_href
       else Ret None |}.

Definition container (t a : string) (ts : list string) : Quote :=
  {| span_text := Ret (element t);
     small_author := Ret (element a);
     tag_links := Ret (element <$> ts) |}.

Definition no_author (t : string) : Quote :=
  {| span_text := Ret (element t);
     small_author := Raise NoSuchElementException;
     tag_links := Ret [] |}.

Definition einstein : Item :=
  {| quote := "The world as we have created it is a process of our thinking.";
     author := "Albert Einstein";
     tags := ["change"; "deep-thoughts"] |}.
Definition rowling : Item :=
  {| quote := "It is our choices, Harry, that show what we truly are.";
     author := "J.K. Rowling";
     tags := ["abilities"; "choices"] |}.
Definition austen : Item :=
  {| quote := String dquote "naïve" ++ String LF "" ++ "A\B";
     author := "Jane Austen";
     tags := [] |}.

Definition of_item (it : Item) : Quote :=
  container (quote it) (author it) (tags it).

Definition page1 : Page :=
  {| wait_quotes := Ret tt;
     div_quotes := Ret [of_item einstein; no_author "orphan"; of_item rowling];
     li_next_a := Ret (link (Some "https://quotes.toscrape.com/page/2/") None);
     current_url := Ret "https://quotes.toscrape.com/" |}.

Definition page2 : Page :=
  {| wait_quotes := Ret tt;
     div_quotes := Ret [of_item austen];
     li_next_a := Raise NoSuchElementException;
     current_url := Ret "https://quotes.toscrape.com/page/2/" |}.

Definition page_no_href : Page :=
  {| wait_quotes := Ret tt;
     div_quotes := Ret [];
     li_next_a := Ret (link (Some "") None);
     current_url := Ret "https://quotes.toscrape.com//" |}.

Definition page_data_href : Page :=
  {| wait_quotes := Ret tt;
     div_quotes := Ret [];
     li_next_a := Ret (link None (Some "/page/7/"));
     current_url := Ret "https://quotes.toscrape.com/" |}.

Definition slow_page : Page :=
  {| wait_quotes := Raise TimeoutException;
     div_quotes := Ret [];
     li_next_a := Raise NoSuchElementException;
     current_url := Ret "https://quotes.toscrape.com/page/2/" |}.

Definition world (site : nat -> string -> res Page) : World :=
  {| fake_useragent := Ret "Mozilla/5.0";
     random_choice := 0;
     selenium_manager := Ret tt;
     os_name := "posix";
     path_exists := fun _ => false;
     local_chrome := Ret tt;
     web := site;
     putenv := fun _ v =>
       if has_nul v then Raise (OtherException "ValueError") else Ret tt |}.

(** Two pages, the second one is the last. *)
Definition two_pages : World :=
  world (fun _ u =>
    if String.eqb u "https://quotes.toscrape.com/" then Ret page1
    else if String.eqb u "https://quotes.toscrape.com/page/2/" then Ret page2
    else Raise (OtherException "WebDriverException")).

(** The second page never shows its quotes. *)
Definition second_page_slow : World :=
  world (fun _ u =>
    if String.eqb u "https://quotes.toscrape.com/" then Ret page1
    else Ret slow_page).

(** The connection drops when the second page is requested. *)
Definition second_page_unreachable : World :=
  world (fun _ u =>
    if String.eqb u "https://quotes.toscrape.com/" then Ret page1
    else Raise (OtherException "WebDriverException")).

Definition env_http : Env :=
  {[ "HTTP_PROXY" := "http://proxy.local:3128";
     "HTTPS_PROXY" := "http://secure.local:3128";
     "PROXY_URL" := "" ]}.
End Sample.

(** ** Further vocabulary *)

(** A text without characters below U+0020, the characters JSON does not
    allow unescaped in a string. *)
Fixpoint no_control (s : string) : bool :=
  match s with
  | EmptyString => true
  | String c s' => (32 <=? nat_of_ascii c) && no_control s'
  end.

(** A text the encoder has nothing to escape in: no control character,
    no double quote, no backslash. *)
Fixpoint plain (s : string) : bool :=
  match s with
  | EmptyString => true
  | String c s' =>
      (32 <=? nat_of_ascii c) && negb (Ascii.eqb c dquote)
      && negb (Ascii.eqb c bslash) && plain s'
  end.


(** The body of the [try] of [scrape_first_page] (lines 91-109). *)
Definition first_page_body (W : World) (url : string) : M unit :=
  (p <- driver_get W url ;;
   _ <- M.lift (wait_quotes p) ;;
   quotes <- M.lift (div_quotes p) ;;
   for_quotes quotes)%M.

(** ** Further sample inputs *)

Module Scenario.
(** Every address shows the same page, whose next link leads back to it. *)
Definition circular_page : Page :=
  {| wait_quotes := Ret tt;
     div_quotes := Ret [Sample.of_item Sample.einstein];
     li_next_a := Ret (Sample.link (Some "https://quotes.toscrape.com/") None);
     current_url := Ret "https://quotes.toscrape.com/" |}.

Definition circular : World :=
  Sample.world (fun _ _ => Ret circular_page).

(** A container whose text element went stale. *)
Definition stale : Quote :=
  {| span_text := Raise (OtherException "StaleElementReferenceException");
     small_author := Ret (Sample.element "Nobody");
     tag_links := Ret [] |}.

Definition page_with_stale : Page :=
  {| wait_quotes := Ret tt;
     div_quotes := Ret [Sample.of_item Sample.einstein; stale;
                        Sample.of_item Sample.rowling];
     li_next_a := Raise NoSuchElementException;
     current_url := Ret "https://quotes.toscrape.com/" |}.

Definition stale_site : World :=
  Sample.world (fun _ _ => Ret page_with_stale).

(** Selenium Manager fails; a chromedriver is installed at one place. *)
Definition manager_fails (installed : string) : World :=
  {| fake_useragent := Raise (OtherException "FakeUserAgentError");
     random_choice := 4;
     selenium_manager := Raise (OtherException "NoSuchDriverException");
     os_name := "posix";
     path_exists := fun p => String.eqb p installed;
     local_chrome := Ret tt;
     web := fun _ _ => Ret Sample.page2;
     putenv := fun _ v =>
       if has_nul v then Raise (OtherException "ValueError") else Ret tt |}.

Definition env_driver : Env :=
  {[ "CHROMEDRIVER" := "/opt/chromedriver" ]}.


(** A record whose quote holds the unpaired surrogate U+D800. *)
Definition broken : Item :=
  {| quote := "half " ++ String "237" (String "160" (String "128" ""));
     author := "Nobody";
     tags := [] |}.

(** Windows. *)
Definition windows : World :=
  {| fake_useragent := Ret "Mozilla/5.0";
     random_choice := 0;
     selenium_manager := Ret tt;
     os_name := "nt";
     path_exists := fun _ => false;
     local_chrome := Ret tt;
     web := fun _ _ => Ret Sample.page2;
     putenv := fun _ v =>
       if has_nul v then Raise (OtherException "ValueError") else Ret tt |}.

Definition env_two_proxies : Env :=
  {[ "HTTP_PROXY" := "http://proxy.local:3128";
     "HTTPS_PROXY" := "http://secure.local:3128" ]}.
End Scenario.

(** * Properties *)

(** Case analysis on the eight bits of a character. *)
Ltac each_ascii c :=
  destruct c as [[] [] [] [] [] [] [] []].

(** ** Truthiness *)

Lemma truthy_Some (s : string) : s <> "" -> truthy (Some s) = true.
Proof.
  intros Hs. unfold truthy. destruct (String.eqb_spec s ""); [contradiction | reflexivity].
Qed.

Lemma truthy_blank (o : option string) : blank o -> truthy o = false.
Proof. intros [-> | ->]; reflexivity. Qed.

Lemma truthy_true_inv (o : option string) :
  truthy o = true -> exists s, o = Some s /\ s <> "".
Proof.
  destruct o as [s|]; [|discriminate]. simpl. intros H. exists s. split; [reflexivity|].
  intros ->. discriminate.
Qed.

Lemma truthy_false_inv (o : option string) : truthy o = false -> blank o.
Proof.
  destruct o as [s|]; [|by left]. simpl. intros H. right.
  destruct (String.eqb_spec s ""); [by subst | discriminate].
Qed.

(** ** [rstrip] *)

(** [rstrip_slash] removes the slashes at the end and nothing else. *)
Lemma rstrip_slash_spec (s : string) :
  exists n,
    s = (rstrip_slash s +:+ slashes n)%string /\
    ends_with_slash (rstrip_slash s) = false.
Proof.
  induction s as [|c s (n & Hs & He)].
  - by exists 0.
  - cbn [rstrip_slash]. destruct (rstrip_slash s) as [|d r].
    + destruct (Ascii.eqb_spec c "/") as [-> | Hc].
      * exists (S n). split; [|reflexivity]. by rewrite Hs at 1.
      * exists n. split; [by rewrite Hs at 1|].
        cbn [ends_with_slash]. by apply Ascii.eqb_neq.
    + exists n. split; [by rewrite Hs at 1|]. exact He.
Qed.

Example rstrip_slash_sample :
  rstrip_slash "https://quotes.toscrape.com//" = "https://quotes.toscrape.com"
  /\ rstrip_slash "///" = ""
  /\ rstrip_slash "a/b" = "a/b".
Proof. repeat split. Qed.

(** ** Proxy configuration *)

(** C9. The proxy handed to the crawl of the main block comes from the
    environment in a fixed order: [PROXY_URL] when it is set and not
    empty, otherwise [HTTP_PROXY] when it is set and not empty, otherwise
    [HTTPS_PROXY]; when none of the three is set there is no proxy. *)
Theorem proxy_env_precedence (env : Env) :
  (forall v, env !! "PROXY_URL" = Some v -> v <> "" -> proxy_env env = Some v) /\
  (forall v, blank (env !! "PROXY_URL") ->
     env !! "HTTP_PROXY" = Some v -> v <> "" -> proxy_env env = Some v) /\
  (blank (env !! "PROXY_URL") -> blank (env !! "HTTP_PROXY") ->
     proxy_env env = env !! "HTTPS_PROXY") /\
  (env !! "PROXY_URL" = None -> env !! "HTTP_PROXY" = None ->
     env !! "HTTPS_PROXY" = None -> proxy_env env = None) /\
  (forall fuel W fs,
     fst <$> main fuel W env fs
     = scrape_all_pages fuel W "https://quotes.toscrape.com/" (proxy_env env) env).
Proof.
  unfold proxy_env, por. repeat split.
  - intros v Hv Hne. pose proof (truthy_Some v Hne) as E.
    rewrite Hv, E. cbv iota. by rewrite E.
  - intros v Hp Hv Hne. pose proof (truthy_Some v Hne) as E.
    rewrite (truthy_blank _ Hp), Hv. cbv iota. by rewrite E.
  - intros Hp Hh. by rewrite (truthy_blank _ Hp), (truthy_blank _ Hh).
  - by intros -> -> ->.
  - intros fuel W fs. unfold main.
    destruct (scrape_all_pages _ _ _ _ _) as [run|]; [|reflexivity].
    simpl. by destruct (returned run).
Qed.

Lemma proxy_env_precedence_witness :
  proxy_env Sample.env_http = Some "http://proxy.local:3128".
Proof.
  apply (proj1 (proj2 (proxy_env_precedence Sample.env_http))).
  - right. reflexivity.
  - reflexivity.
  - discriminate.
Defined.

Lemma apply_proxy_env_blank (W : World) (proxy_url : option string) (env : Env) :
  blank proxy_url -> _apply_proxy_env W proxy_url env = (Ret tt, env).
Proof. intros Hb. unfold _apply_proxy_env. by rewrite (truthy_blank _ Hb). Qed.


Lemma apply_proxy_env_returns (W : World) (p : string) (env : Env) :
  p <> "" ->
  proxy_accepted W p env ->
  fst (_apply_proxy_env W (Some p) env) = Ret tt.
Proof.
  intros Hp (H1 & H2 & H3). unfold _apply_proxy_env, setdefault, environ_set.
  rewrite (truthy_Some p Hp), H1, H2. cbn [negb].
  rewrite !lookup_insert_ne by done.
  destruct (env !! "NO_PROXY") eqn:Hno; [reflexivity|]. by rewrite H3.
Qed.

(** What [_apply_proxy_env] leaves under each name when it returns for a
    proxy that is not empty. *)
Lemma apply_proxy_env_lookup (W : World) (p : string) (env : Env) (k : string) :
  p <> "" ->
  fst (_apply_proxy_env W (Some p) env) = Ret tt ->
  snd (_apply_proxy_env W (Some p) env) !! k =
  if decide (k = "HTTP_PROXY") then Some p
  else if decide (k = "HTTPS_PROXY") then Some p
  else if decide (k = "NO_PROXY")
       then Some (default "localhost,127.0.0.1" (env !! "NO_PROXY"))
       else env !! k.
Proof.
  intros Hp. unfold _apply_proxy_env, setdefault, environ_set.
  rewrite (truthy_Some p Hp). cbn [negb].
  destruct (putenv W "HTTP_PROXY" p); [|discriminate].
  destruct (putenv W "HTTPS_PROXY" p); [|discriminate].
  rewrite !(lookup_insert_ne _ _ "NO_PROXY") by done.
  destruct (env !! "NO_PROXY") as [v|] eqn:Hno;
    [|destruct (putenv W "NO_PROXY" _); [|discriminate]];
    intros _; cbn [snd]; repeat case_decide; subst;
    rewrite ?lookup_insert_eq, ?lookup_insert_ne by done;
    rewrite ?lookup_insert_eq, ?lookup_insert_ne by done;
    rewrite ?lookup_insert_eq, ?lookup_insert_ne by done; done.
Qed.


Lemma build_chrome_env (W : World) (user_agent : string)
    (proxy_url : option string) (env : Env) :
  snd (_build_chrome W user_agent proxy_url env)
  = snd (_apply_proxy_env W proxy_url env).
Proof.
  unfold _build_chrome.
  destruct (_apply_proxy_env W proxy_url env) as [[[]|e] env']; [|reflexivity].
  destruct (selenium_manager W) as [|e]; [reflexivity|].
  destruct (negb (is_Exception e)); [reflexivity|].
  destruct (path_exists W _); [|reflexivity].
  by destruct (local_chrome W).
Qed.




(** ** The store *)

Lemma add_items_nil (st : Store) : add_items [] st = st.
Proof. destruct st. unfold add_items. simpl. by rewrite app_nil_r. Qed.

Lemma add_items_add_items (l1 l2 : list Item) (st : Store) :
  add_items l2 (add_items l1 st) = add_items (l1 ++ l2) st.
Proof. unfold add_items. simpl. by rewrite app_assoc. Qed.

Lemma add_pages_add_pages (l1 l2 : list Page) (st : Store) :
  add_pages l2 (add_pages l1 st) = add_pages (l1 ++ l2) st.
Proof. unfold add_pages. simpl. by rewrite app_assoc. Qed.

Lemma add_items_add_pages (l : list Item) (ps : list Page) (st : Store) :
  add_items l (add_pages ps st) = add_pages ps (add_items l st).
Proof. reflexivity. Qed.

(** ** Extraction of one document *)

Lemma for_quotes_cons (q : Quote) (rest : list Quote) (st : Store) :
  for_quotes (q :: rest) st =
  match read_quote q with
  | Ret item => for_quotes rest (add_items [item] st)
  | Raise e =>
      if is_NoSuchElementException e then for_quotes rest st else (Raise e, st)
  end.
Proof.
  simpl. unfold M.bind, M.try_except, M.lift, M.ret, append.
  destruct (read_quote q) as [item|e]; [reflexivity|].
  by destruct (is_NoSuchElementException e).
Qed.

Lemma for_quotes_app (l1 l2 : list Quote) (st : Store) :
  for_quotes (l1 ++ l2) st =
  match for_quotes l1 st with
  | (Ret _, st') => for_quotes l2 st'
  | (Raise e, st') => (Raise e, st')
  end.
Proof.
  revert st. induction l1 as [|q l1 IH]; intros st; [reflexivity|].
  rewrite <- app_comm_cons, !for_quotes_cons.
  destruct (read_quote q) as [item|e]; [apply IH|].
  destruct (is_NoSuchElementException e); [apply IH | reflexivity].
Qed.

Lemma traverse_text (links : list Element) (ts : list string) :
  Forall2 (fun l t => text l = Ret t) links ts ->
  Res.traverse text links = Ret ts.
Proof.
  induction 1 as [|l t links ts Hl _ IH]; [reflexivity|].
  simpl. by rewrite Hl, IH.
Qed.

Lemma read_quote_valid (q : Quote) (item : Item) :
  valid_container q item -> read_quote q = Ret item.
Proof.
  intros (e & a & links & He & Hq & Ha & Hau & Hl & Hts).
  unfold read_quote. rewrite He. simpl. rewrite Hq. simpl.
  rewrite Ha. simpl. rewrite Hau. simpl. rewrite Hl. simpl.
  rewrite (traverse_text _ _ Hts). simpl. by destruct item.
Qed.

Lemma read_quote_lacking (q : Quote) :
  lacks_sub_element q -> read_quote q = Raise NoSuchElementException.
Proof.
  unfold read_quote. intros [H | (e & s & He & Hs & Ha)].
  - by rewrite H.
  - rewrite He. simpl. rewrite Hs. simpl. by rewrite Ha.
Qed.

Lemma for_quotes_valid (quotes : list Quote) (items : list Item) (st : Store) :
  Forall2 valid_container quotes items ->
  for_quotes quotes st = (Ret tt, add_items items st).
Proof.
  intros H. revert st. induction H as [|q item quotes items Hq _ IH]; intros st.
  - by rewrite add_items_nil.
  - rewrite for_quotes_cons, (read_quote_valid _ _ Hq), IH.
    by rewrite add_items_add_items.
Qed.

Lemma omap_container_cons (q : Quote) (quotes : list Quote) :
  omap container_item (q :: quotes) =
  match read_quote q with
  | Ret item => item :: omap container_item quotes
  | Raise _ => omap container_item quotes
  end.
Proof. unfold container_item at 1. simpl. unfold container_item at 1. by destruct (read_quote q). Qed.

Lemma page_records_valid (p : Page) (quotes : list Quote) (items : list Item) :
  div_quotes p = Ret quotes ->
  Forall2 valid_container quotes items ->
  page_records p = items.
Proof.
  intros Hp H. unfold page_records. rewrite Hp. clear Hp.
  induction H as [|q item quotes items Hq _ IH]; [reflexivity|].
  by rewrite omap_container_cons, (read_quote_valid _ _ Hq), IH.
Qed.

(** What the loop over the containers leaves behind, whatever they are:
    records were appended and nothing else changed; the new records are
    an initial part of the records of the containers, and all of them
    when the loop runs to its end. *)
Lemma for_quotes_outcome (quotes : list Quote) (st : Store) :
  exists c,
    snd (for_quotes quotes st) = add_items c st /\
    c `prefix_of` omap container_item quotes /\
    (forall u, fst (for_quotes quotes st) = Ret u -> c = omap container_item quotes).
Proof.
  revert st. induction quotes as [|q quotes IH]; intros st.
  - exists []. simpl. by rewrite add_items_nil.
  - rewrite for_quotes_cons, omap_container_cons.
    destruct (read_quote q) as [item|e].
    + destruct (IH (add_items [item] st)) as (c & Hs & Hp & Hr).
      exists (item :: c). rewrite Hs, add_items_add_items. simpl.
      repeat split; [by apply prefix_cons|]. intros u Hu. f_equal. eauto.
    + destruct (is_NoSuchElementException e).
      * destruct (IH st) as (c & Hs & Hp & Hr). exists c. simpl. eauto.
      * exists []. simpl. rewrite add_items_nil.
        repeat split; [apply prefix_nil | discriminate].
Qed.

Lemma for_quotes_harmless (quotes : list Quote) (st : Store) :
  Forall harmless quotes ->
  for_quotes quotes st = (Ret tt, add_items (omap container_item quotes) st).
Proof.
  intros H. revert st. induction H as [|q quotes Hq _ IH]; intros st.
  - by rewrite add_items_nil.
  - rewrite for_quotes_cons, omap_container_cons.
    unfold harmless in Hq. destruct (read_quote q) as [item|e].
    + by rewrite IH, add_items_add_items.
    + subst e. simpl. apply IH.
Qed.

(** One turn of the loop on a document that loads and shows its quotes. *)
Lemma iteration_loaded (W : World) (current : string) (st : Store) (p : Page)
    (quotes : list Quote) :
  web W (List.length (history st)) current = Ret p ->
  wait_quotes p = Ret tt ->
  div_quotes p = Ret quotes ->
  iteration W current st =
  match for_quotes quotes (add_pages [p] st) with
  | (Ret _, st') => (seek_next p, st')
  | (Raise e, st') => (Raise e, st')
  end.
Proof.
  intros Hw Hwait Hq. unfold iteration, M.bind, M.lift, driver_get.
  rewrite Hw, Hwait, Hq. unfold add_pages.
  by destruct (for_quotes quotes _) as [[[]|e] st'].
Qed.

(** C5. On a document whose N containers are all valid, extraction gives
    exactly N records, the one of each container, in the order of the
    containers: this is what the loop over the containers appends, what
    one turn of the crawl adds before it looks for the next page, and
    what [scrape_first_page] returns. *)
Theorem valid_containers_all_extracted (quotes : list Quote) (items : list Item) :
  Forall2 valid_container quotes items ->
  List.length items = List.length quotes /\
  (forall st, for_quotes quotes st = (Ret tt, add_items items st)) /\
  (forall W current st p,
     web W (List.length (history st)) current = Ret p ->
     wait_quotes p = Ret tt ->
     div_quotes p = Ret quotes ->
     page_records p = items /\
     iteration W current st = (seek_next p, add_items items (add_pages [p] st))) /\
  (forall W url proxy_url env env' p,
     session_starts W proxy_url env env' ->
     web W 0 url = Ret p ->
     wait_quotes p = Ret tt ->
     div_quotes p = Ret quotes ->
     scrape_first_page W url proxy_url env =
       {| returned := Ret items; environ := env'; pages := [p]; released := 1 |}).
Proof.
  intros H. split; [|split; [|split]].
  - symmetry. eapply Forall2_length, H.
  - intros st. by apply for_quotes_valid.
  - intros W current st p Hw Hwait Hq. split.
    + by eapply page_records_valid.
    + rewrite (iteration_loaded _ _ _ _ _ Hw Hwait Hq).
      by rewrite (for_quotes_valid _ _ _ H).
  - intros W url proxy_url env env' p (ua & drv & Hua & Hb) Hw Hwait Hq.
    unfold scrape_first_page. rewrite Hua, Hb.
    unfold M.bind, M.lift, driver_get. simpl. rewrite Hw, Hwait, Hq.
    by rewrite (for_quotes_valid _ _ _ H).
Qed.

Lemma valid_containers_all_extracted_witness :
  for_quotes [Sample.of_item Sample.einstein; Sample.of_item Sample.rowling]
    empty_store
  = (Ret tt, add_items [Sample.einstein; Sample.rowling] empty_store).
Proof.
  apply (valid_containers_all_extracted
           [Sample.of_item Sample.einstein; Sample.of_item Sample.rowling]
           [Sample.einstein; Sample.rowling]).
  repeat constructor;
    (eexists _, _, _; repeat split; try reflexivity; repeat constructor).
Defined.

(** C4. A container that lacks a required sub-element adds no record and
    changes nothing else: the loop over the containers behaves as if the
    container were not on the page.  With valid siblings, the loop ends
    normally with exactly their records, the turn of the crawl goes on
    to look for the next page, and [scrape_first_page] returns them. *)
Theorem lacking_container_skipped (q : Quote) :
  lacks_sub_element q ->
  (forall before after st,
     for_quotes (before ++ q :: after) st = for_quotes (before ++ after) st) /\
  (forall before after items1 items2,
     Forall2 valid_container before items1 ->
     Forall2 valid_container after items2 ->
     (forall st,
        for_quotes (before ++ q :: after) st
        = (Ret tt, add_items (items1 ++ items2) st)) /\
     (forall W current st p,
        web W (List.length (history st)) current = Ret p ->
        wait_quotes p = Ret tt ->
        div_quotes p = Ret (before ++ q :: after)%list ->
        iteration W current st
        = (seek_next p, add_items (items1 ++ items2) (add_pages [p] st))) /\
     (forall W url proxy_url env env' p,
        session_starts W proxy_url env env' ->
        web W 0 url = Ret p ->
        wait_quotes p = Ret tt ->
        div_quotes p = Ret (before ++ q :: after)%list ->
        returned (scrape_first_page W url proxy_url env) = Ret (items1 ++ items2)%list)).
Proof.
  intros Hq.
  assert (Hskip : forall before after st,
            for_quotes (before ++ q :: after) st = for_quotes (before ++ after) st).
  { intros before after st. rewrite !for_quotes_app.
    destruct (for_quotes before st) as [[[]|e] st']; [|reflexivity].
    by rewrite for_quotes_cons, (read_quote_lacking _ Hq). }
  split; [exact Hskip|].
  intros before after items1 items2 H1 H2.
  assert (Hall : forall st, for_quotes (before ++ q :: after) st
                            = (Ret tt, add_items (items1 ++ items2) st)).
  { intros st. rewrite Hskip. apply for_quotes_valid. by apply Forall2_app. }
  split; [exact Hall|split].
  - intros W current st p Hw Hwait Hd.
    by rewrite (iteration_loaded _ _ _ _ _ Hw Hwait Hd), Hall.
  - intros W url proxy_url env env' p (ua & drv & Hua & Hb) Hw Hwait Hd.
    unfold scrape_first_page. rewrite Hua, Hb.
    unfold M.bind, M.lift, driver_get. simpl. rewrite Hw, Hwait, Hd.
    by rewrite Hall.
Qed.

Lemma lacking_container_skipped_witness :
  for_quotes [Sample.of_item Sample.einstein; Sample.no_author "orphan";
              Sample.of_item Sample.rowling] empty_store
  = for_quotes [Sample.of_item Sample.einstein; Sample.of_item Sample.rowling]
      empty_store.
Proof.
  apply (proj1 (lacking_container_skipped (Sample.no_author "orphan")
                  ltac:(right; eexists _, _; repeat split; reflexivity))
           [Sample.of_item Sample.einstein] [Sample.of_item Sample.rowling]).
Defined.

(** ** The next page *)

Arguments truthy : simpl never.
Open Scope list_scope.

(** C8. When the next-page link is there: a [href] that is not empty is
    the new address; with an empty or missing [href], a [data-href] that
    is not empty is the new address; only when both are empty or missing
    is the address made up from the current one, without its trailing
    slashes, followed by [/page/2/]. *)
Theorem next_address_resolution (p : Page) (a : Element) :
  li_next_a p = Ret a ->
  (forall h,
     get_attribute a "href" = Ret (Some h) -> h <> "" ->
     seek_next p = Ret (Some h)) /\
  (forall o d,
     get_attribute a "href" = Ret o -> blank o ->
     get_attribute a "data-href" = Ret (Some d) -> d <> "" ->
     seek_next p = Ret (Some d)) /\
  (forall o o' u,
     get_attribute a "href" = Ret o -> blank o ->
     get_attribute a "data-href" = Ret o' -> blank o' ->
     current_url p = Ret u ->
     seek_next p = Ret (Some (rstrip_slash u +:+ "/page/2/"))).
Proof.
  intros Ha. unfold seek_next. rewrite Ha. simpl. repeat split.
  - intros h Hh Hne. rewrite Hh. simpl. rewrite (truthy_Some h Hne). simpl.
    by rewrite (truthy_Some h Hne).
  - intros o d Ho Hb Hd Hne. rewrite Ho. simpl.
    rewrite (truthy_blank _ Hb). simpl. rewrite Hd. simpl.
    by rewrite (truthy_Some d Hne).
  - intros o o' u Ho Hb Hd Hb' Hu. rewrite Ho. simpl.
    rewrite (truthy_blank _ Hb). simpl. rewrite Hd. simpl.
    rewrite (truthy_blank _ Hb'). simpl. by rewrite Hu.
Qed.

Lemma next_address_resolution_witness :
  seek_next Sample.page_no_href = Ret (Some "https://quotes.toscrape.com/page/2/")
  /\ seek_next Sample.page_data_href = Ret (Some "/page/7/")
  /\ seek_next Sample.page1 = Ret (Some "https://quotes.toscrape.com/page/2/").
Proof.
  split; [|split].
  - apply (proj2 (proj2 (next_address_resolution Sample.page_no_href _ eq_refl))
             (Some "") None "https://quotes.toscrape.com//");
      try reflexivity; [by right | by left].
  - apply (proj1 (proj2 (next_address_resolution Sample.page_data_href _ eq_refl))
             None "/page/7/"); try reflexivity; [by left | discriminate].
  - apply (proj1 (next_address_resolution Sample.page1 _ eq_refl)
             "https://quotes.toscrape.com/page/2/"); [reflexivity | discriminate].
Defined.

(** ** The crawl *)

Lemma extracts_for_quotes (p : Page) (st : Store) :
  extracts p ->
  exists quotes, div_quotes p = Ret quotes /\
    for_quotes quotes st = (Ret tt, add_items (page_records p) st).
Proof.
  intros (_ & quotes & Hq & Hh). exists quotes. split; [exact Hq|].
  unfold page_records. rewrite Hq. by apply for_quotes_harmless.
Qed.

Lemma iteration_extracts (W : World) (current : string) (st : Store) (p : Page) :
  web W (List.length (history st)) current = Ret p ->
  extracts p ->
  iteration W current st
  = (seek_next p, add_items (page_records p) (add_pages [p] st)).
Proof.
  intros Hw Hx. destruct (extracts_for_quotes p (add_pages [p] st) Hx) as (quotes & Hq & Hf).
  destruct Hx as (Hwait & _).
  by rewrite (iteration_loaded _ _ _ _ _ Hw Hwait Hq), Hf.
Qed.

(** The loop follows a walk, one turn for each of its documents. *)
Lemma pagination_loop_walk (W : World) (i : nat) (u u' : string) (ps : list Page) :
  Walk W i u ps u' ->
  forall st fuel,
    List.length (history st) = i ->
    pagination_loop (List.length ps + fuel) W u st
    = pagination_loop fuel W u'
        (add_items (flat_map page_records ps) (add_pages ps st)).
Proof.
  induction 1 as [i u | i u p u' ps u'' Hw Hx Hn _ IH]; intros st fuel Hi.
  - simpl. f_equal. destruct st. unfold add_items, add_pages. simpl.
    by rewrite !app_nil_r.
  - subst i. simpl. rewrite (iteration_extracts _ _ _ _ Hw Hx), Hn.
    rewrite IH by (simpl; rewrite length_app; simpl; lia).
    f_equal. unfold add_items, add_pages. simpl.
    by rewrite <- !app_assoc.
Qed.

(** One turn of the loop, whatever the document: the session is not
    released; either nothing was loaded and nothing appended, or one
    document was loaded and an initial part of its records appended, all
    of them when the turn ends without an exception. *)
Lemma iteration_outcome (W : World) (current : string) (st : Store) :
  quit_calls (snd (iteration W current st)) = quit_calls st /\
  ((exists e, iteration W current st = (Raise e, st)) \/
   (exists p c,
      snd (iteration W current st) = add_items c (add_pages [p] st) /\
      c `prefix_of` page_records p /\
      (forall v, fst (iteration W current st) = Ret v -> c = page_records p))).
Proof.
  unfold iteration, M.bind, M.lift, driver_get.
  destruct (web W _ current) as [p|e]; [|split; [reflexivity | left; eauto]].
  fold (add_pages [p] st).
  destruct (wait_quotes p) as [[]|e].
  - destruct (div_quotes p) as [quotes|e] eqn:Hd.
    + destruct (for_quotes_outcome quotes (add_pages [p] st)) as (c & Hs & Hp & Hr).
      destruct (for_quotes quotes _) as [[[]|e] st']; simpl in *; subst st';
        (split; [reflexivity|]); right; exists p, c;
        unfold page_records; rewrite Hd.
      * repeat split; [done|]. intros _ _. exact (Hr tt eq_refl).
      * repeat split; [done|discriminate].
    + split; [reflexivity|]. right. exists p, []. simpl.
      rewrite add_items_nil. repeat split; [apply prefix_nil|discriminate].
  - split; [reflexivity|]. right. exists p, []. simpl.
    rewrite add_items_nil. repeat split; [apply prefix_nil|discriminate].
Qed.

(** The loop as a whole, started where every loaded document has been
    extracted in full. *)
Lemma pagination_loop_outcome (fuel : nat) (W : World) :
  forall (current : string) (st : Store) (r : res unit) (st' : Store),
    pagination_loop fuel W current st = Some (r, st') ->
    all_items st = flat_map page_records (history st) ->
    quit_calls st' = quit_calls st /\
    exists earlier last c,
      history st' = earlier ++ last /\
      List.length last <= 1 /\
      all_items st' = flat_map page_records earlier ++ c /\
      c `prefix_of` flat_map page_records last /\
      (forall v, r = Ret v -> c = flat_map page_records last).
Proof.
  induction fuel as [|fuel IH]; intros current st r st' Hl Hinv; [discriminate|].
  simpl in Hl.
  destruct (iteration_outcome W current st) as (Hq & Hit).
  destruct Hit as [(e & He) | (p & c & Hs & Hp & Hr)].
  - rewrite He in Hl. injection Hl as <- <-. split; [reflexivity|].
    exists (history st), [], []. simpl. rewrite !app_nil_r.
    repeat split; solve [done | lia | discriminate].
  - destruct (iteration W current st) as [[[next|]|e] st1]; simpl in *; subst st1.
    + apply IH in Hl; [exact Hl|].
      simpl. rewrite (Hr _ eq_refl), Hinv, flat_map_app. simpl.
      by rewrite app_nil_r.
    + injection Hl as <- <-. split; [reflexivity|].
      exists (history st), [p], c. simpl. rewrite app_nil_r, Hinv.
      repeat split; solve [done | lia | eauto].
    + injection Hl as <- <-. split; [reflexivity|].
      exists (history st), [p], c. simpl. rewrite app_nil_r, Hinv.
      repeat split; solve [done | lia | discriminate].
Qed.

Lemma scrape_all_pages_session (fuel : nat) (W : World) (start_url : string)
    (proxy_url : option string) (env env' : Env) :
  session_starts W proxy_url env env' ->
  scrape_all_pages fuel W start_url proxy_url env
  = finish env' <$> pagination_loop fuel W start_url empty_store.
Proof.
  intros (ua & drv & Hua & Hb). unfold scrape_all_pages. by rewrite Hua, Hb.
Qed.

(** Without a session nothing is returned. *)
Lemma scrape_all_pages_returns (fuel : nat) (W : World) (start_url : string)
    (proxy_url : option string) (env : Env) (run : Run) (items : list Item) :
  scrape_all_pages fuel W start_url proxy_url env = Some run ->
  returned run = Ret items ->
  exists r st env',
    pagination_loop fuel W start_url empty_store = Some (r, st) /\
    run = finish env' (r, st).
Proof.
  unfold scrape_all_pages. intros Hrun Hret.
  destruct (_random_user_agent W) as [ua|e].
  - destruct (_build_chrome W ua proxy_url env) as [[drv|e] env'].
    + destruct (pagination_loop fuel W start_url empty_store) as [[r st]|];
        [|discriminate].
      injection Hrun as <-. by exists r, st, env'.
    + injection Hrun as <-. discriminate.
  - injection Hrun as <-. discriminate.
Qed.

(** C1. Whenever [scrape_all_pages] returns, the returned list is made of
    the records of the documents the session loaded, document after
    document in the order of loading, each document giving its records
    in the order of its containers; only the last document loaded may
    contribute an initial part of its records instead of all of them. *)
Theorem records_keep_page_order (fuel : nat) (W : World) (start_url : string)
    (proxy_url : option string) (env : Env) (run : Run) (items : list Item) :
  scrape_all_pages fuel W start_url proxy_url env = Some run ->
  returned run = Ret items ->
  exists earlier last c,
    pages run = (earlier ++ last)%list /\
    List.length last <= 1 /\
    items = (flat_map page_records earlier ++ c)%list /\
    c `prefix_of` flat_map page_records last.
Proof.
  intros Hrun Hret.
  destruct (scrape_all_pages_returns _ _ _ _ _ _ _ Hrun Hret)
    as (r & st & env' & Hl & ->).
  destruct (pagination_loop_outcome _ _ _ _ _ _ Hl eq_refl)
    as (_ & earlier & last & c & Hh & Hlen & Hitems & Hp & _).
  exists earlier, last, c. simpl in *. repeat split; try done.
  destruct r as [[]|e]; [congruence|].
  destruct (is_TimeoutException e); congruence.
Qed.

Lemma records_keep_page_order_witness :
  exists earlier last c,
    [Sample.page1; Sample.page2] = (earlier ++ last)%list /\
    List.length last <= 1 /\
    [Sample.einstein; Sample.rowling; Sample.austen]
      = (flat_map page_records earlier ++ c)%list /\
    c `prefix_of` flat_map page_records last.
Proof.
  exact (records_keep_page_order 3 Sample.two_pages "https://quotes.toscrape.com/"
           None ∅ _ _ eq_refl eq_refl).
Defined.

(** C2. When the documents of pages 1..K-1 were loaded and extracted and
    the bounded wait expires while page K loads, [scrape_all_pages] ends
    for every sufficient fuel, returns the records of pages 1..K-1 in
    order (nothing when K = 1), raises nothing and has released the
    session once. *)
Theorem timeout_returns_earlier_pages (W : World) (start_url : string)
    (proxy_url : option string) (env env' : Env) (ps : list Page) (u : string) :
  session_starts W proxy_url env env' ->
  Walk W 0 start_url ps u ->
  load_times_out W (List.length ps) u ->
  forall fuel, List.length ps < fuel ->
    exists run,
      scrape_all_pages fuel W start_url proxy_url env = Some run /\
      returned run = Ret (flat_map page_records ps) /\
      released run = 1 /\
      environ run = env'.
Proof.
  intros Hs Hw Ht fuel Hfuel.
  rewrite (scrape_all_pages_session _ _ _ _ _ _ Hs).
  replace fuel with (List.length ps + S (fuel - S (List.length ps))) by lia.
  rewrite (pagination_loop_walk _ _ _ _ _ Hw) by reflexivity.
  set (st := add_items _ _).
  assert (Hlen : List.length (history st) = List.length ps) by reflexivity.
  simpl pagination_loop. unfold iteration, M.bind, M.lift, driver_get.
  rewrite Hlen.
  destruct Ht as [Ht | (p & Hp & Ht)].
  - rewrite Ht. simpl. eexists. repeat split.
  - rewrite Hp, Ht. simpl. eexists. repeat split.
Qed.

Lemma timeout_returns_earlier_pages_witness :
  exists run,
    scrape_all_pages 2 Sample.second_page_slow "https://quotes.toscrape.com/"
      None ∅ = Some run /\
    returned run = Ret (flat_map page_records [Sample.page1]) /\
    released run = 1 /\
    environ run = ∅.
Proof.
  apply (timeout_returns_earlier_pages Sample.second_page_slow
           "https://quotes.toscrape.com/" None ∅ ∅ [Sample.page1]
           "https://quotes.toscrape.com/page/2/").
  - eexists _, _. split; reflexivity.
  - eapply Walk_step; [reflexivity | | reflexivity | apply Walk_here].
    split; [reflexivity|]. eexists. split; [reflexivity|].
    repeat constructor.
  - right. eexists. split; reflexivity.
  - simpl. lia.
Defined.

(** C6. When the documents of the pages before were loaded and extracted
    and the document of the current page is loaded and extracted but has
    no next-page link, [scrape_all_pages] ends for every sufficient fuel:
    it leaves the loop normally after this page, returns the records
    gathered up to and including this page, and has released the session
    once. *)
Theorem no_next_link_ends_crawl (W : World) (start_url : string)
    (proxy_url : option string) (env env' : Env) (ps : list Page) (u : string)
    (p : Page) :
  session_starts W proxy_url env env' ->
  Walk W 0 start_url ps u ->
  web W (List.length ps) u = Ret p ->
  extracts p ->
  li_next_a p = Raise NoSuchElementException ->
  forall fuel, List.length ps < fuel ->
    pagination_loop fuel W start_url empty_store
      = Some (Ret tt,
              add_items (flat_map page_records ps ++ page_records p)
                (add_pages (ps ++ [p]) empty_store)) /\
    scrape_all_pages fuel W start_url proxy_url env
      = Some {| returned := Ret (flat_map page_records ps ++ page_records p);
                environ := env';
                pages := ps ++ [p];
                released := 1 |}.
Proof.
  intros Hs Hw Hp Hx Hn fuel Hfuel.
  assert (Hloop : pagination_loop fuel W start_url empty_store
                  = Some (Ret tt,
                          add_items (flat_map page_records ps ++ page_records p)
                            (add_pages (ps ++ [p]) empty_store))).
  { replace fuel with (List.length ps + S (fuel - S (List.length ps))) by lia.
    rewrite (pagination_loop_walk _ _ _ _ _ Hw) by reflexivity.
    simpl pagination_loop.
    rewrite (iteration_extracts _ _ _ p) by (simpl; exact Hp || exact Hx).
    unfold seek_next. rewrite Hn. simpl.
    reflexivity. }
  split; [exact Hloop|].
  by rewrite (scrape_all_pages_session _ _ _ _ _ _ Hs), Hloop.
Qed.

Lemma no_next_link_ends_crawl_witness :
  scrape_all_pages 2 Sample.two_pages "https://quotes.toscrape.com/" None ∅
  = Some {| returned := Ret (flat_map page_records [Sample.page1]
                             ++ page_records Sample.page2);
            environ := ∅;
            pages := [Sample.page1] ++ [Sample.page2];
            released := 1 |}.
Proof.
  apply (no_next_link_ends_crawl Sample.two_pages
           "https://quotes.toscrape.com/" None ∅ ∅ [Sample.page1]
           "https://quotes.toscrape.com/page/2/" Sample.page2).
  - eexists _, _. split; reflexivity.
  - eapply Walk_step; [reflexivity | | reflexivity | apply Walk_here].
    split; [reflexivity|]. eexists. split; [reflexivity|].
    repeat constructor.
  - reflexivity.
  - split; [reflexivity|]. eexists. split; [reflexivity|].
    repeat constructor.
  - reflexivity.
  - simpl. lia.
Defined.

Lemma pagination_loop_empty_history (fuel : nat) (W : World) (current : string)
    (r : res unit) (st : Store) :
  pagination_loop fuel W current empty_store = Some (r, st) ->
  history st = [] -> all_items st = [].
Proof.
  intros Hl Hh.
  destruct (pagination_loop_outcome _ _ _ _ _ _ Hl eq_refl)
    as (_ & earlier & last & c & Hh' & _ & Hitems & Hp & _).
  rewrite Hh in Hh'. symmetry in Hh'. apply app_eq_nil in Hh' as [-> ->].
  simpl in *. apply prefix_nil_inv in Hp. by subst c.
Qed.

(** C3, as the code has it.  Whatever ends the pagination loop, the
    session is released exactly once, after the loop and before the
    function completes.  When the loop is left by a [TimeoutException],
    as when it is left normally, the function returns the records
    gathered so far, which are none when no document was loaded; an
    exception of any other class that leaves the loop reaches the caller
    after the release, and no list is returned. *)
Theorem session_released_once (fuel : nat) (W : World) (start_url : string)
    (proxy_url : option string) (env env' : Env) (r : res unit) (st : Store) :
  session_starts W proxy_url env env' ->
  pagination_loop fuel W start_url empty_store = Some (r, st) ->
  exists run,
    scrape_all_pages fuel W start_url proxy_url env = Some run /\
    quit_calls st = 0 /\
    released run = 1 /\
    match r with
    | Ret _ => returned run = Ret (all_items st)
    | Raise e =>
        if is_TimeoutException e then returned run = Ret (all_items st)
        else returned run = Raise e
    end /\
    (history st = [] -> all_items st = []).
Proof.
  intros Hs Hl.
  destruct (pagination_loop_outcome _ _ _ _ _ _ Hl eq_refl) as (Hq & _).
  simpl in Hq.
  rewrite (scrape_all_pages_session _ _ _ _ _ _ Hs), Hl. simpl.
  eexists. split; [reflexivity|]. simpl. rewrite Hq.
  repeat split.
  - destruct r as [[]|e]; [reflexivity|]. by destruct (is_TimeoutException e).
  - by eapply pagination_loop_empty_history.
Qed.

Lemma session_released_once_witness :
  exists run,
    scrape_all_pages 2 Sample.second_page_unreachable
      "https://quotes.toscrape.com/" None ∅ = Some run /\
    0 = 0 /\
    released run = 1 /\
    returned run = Raise (OtherException "WebDriverException") /\
    ([Sample.page1] = [] -> [Sample.einstein; Sample.rowling] = []).
Proof.
  exact (session_released_once 2 Sample.second_page_unreachable
           "https://quotes.toscrape.com/" None ∅ ∅ _ _
           (ex_intro _ _ (ex_intro _ _ (conj eq_refl eq_refl))) eq_refl).
Defined.

(** C3 as the specification words it does not hold: the first page gives two records, the
    request for the second page raises a [WebDriverException]; the loop
    ends with the two records gathered, the session is released, and the
    caller gets the exception, not the two records. *)
Lemma unexpected_exception_reaches_caller :
  pagination_loop 2 Sample.second_page_unreachable
    "https://quotes.toscrape.com/" empty_store
  = Some (Raise (OtherException "WebDriverException"),
          {| all_items := [Sample.einstein; Sample.rowling];
             history := [Sample.page1];
             quit_calls := 0 |})
  /\ scrape_all_pages 2 Sample.second_page_unreachable
       "https://quotes.toscrape.com/" None ∅
     = Some {| returned := Raise (OtherException "WebDriverException");
               environ := ∅;
               pages := [Sample.page1];
               released := 1 |}
  /\ ~ (exists run,
          scrape_all_pages 2 Sample.second_page_unreachable
            "https://quotes.toscrape.com/" None ∅ = Some run /\
          returned run = Ret [Sample.einstein; Sample.rowling]).
Proof.
  split; [reflexivity|]. split; [reflexivity|].
  intros (run & Hrun & Hret).
  assert (H : scrape_all_pages 2 Sample.second_page_unreachable
                "https://quotes.toscrape.com/" None ∅
              = Some {| returned := Raise (OtherException "WebDriverException");
                        environ := ∅;
                        pages := [Sample.page1];
                        released := 1 |}) by reflexivity.
  rewrite H in Hrun. injection Hrun as <-. discriminate.
Qed.

(** ** Strings *)

Lemma string_app_cons (x : ascii) (a b : string) :
  (String x a +:+ b = String x (a +:+ b))%string.
Proof. reflexivity. Qed.

Lemma string_app_assoc (a b c : string) : ((a +:+ b) +:+ c = a +:+ (b +:+ c))%string.
Proof.
  induction a as [|x a IH]; [reflexivity|].
  by rewrite !string_app_cons, IH.
Qed.

Lemma string_app_nil_r (a : string) : (a +:+ "" = a)%string.
Proof.
  induction a as [|x a IH]; [reflexivity|].
  by rewrite string_app_cons, IH.
Qed.

(** ** The writer emits no line terminator inside a record *)

Lemma no_newline_app (a b : string) :
  no_newline (a +:+ b) = no_newline a && no_newline b.
Proof.
  induction a as [|x a IH]; [reflexivity|].
  rewrite string_app_cons. cbn [no_newline].
  rewrite IH. by rewrite !andb_assoc.
Qed.

Lemma no_newline_escape_char (c : ascii) : no_newline (escape_char c) = true.
Proof. each_ascii c; reflexivity. Qed.

Lemma no_newline_escape (s : string) : no_newline (escape s) = true.
Proof.
  induction s as [|c s IH]; [reflexivity|].
  cbn [escape]. by rewrite no_newline_app, no_newline_escape_char, IH.
Qed.

Lemma no_newline_encode_basestring (s : string) :
  no_newline (encode_basestring s) = true.
Proof.
  unfold encode_basestring. cbn [no_newline].
  by rewrite no_newline_app, no_newline_escape.
Qed.

Lemma no_newline_encode_items (l : list string) :
  no_newline (encode_items l) = true.
Proof.
  induction l as [|s [|s' l] IH]; [reflexivity | apply no_newline_encode_basestring |].
  change (encode_items (s :: s' :: l))
    with (encode_basestring s +:+ ", " +:+ encode_items (s' :: l))%string.
  by rewrite !no_newline_app, no_newline_encode_basestring, IH.
Qed.

Lemma no_newline_encode_list (l : list string) :
  no_newline (encode_list l) = true.
Proof.
  destruct l as [|s l]; [reflexivity|].
  unfold encode_list.
  by rewrite !no_newline_app, no_newline_encode_items.
Qed.

Lemma no_newline_json_dumps (obj : Item) : no_newline (json_dumps obj) = true.
Proof.
  unfold json_dumps.
  by rewrite !no_newline_app, !no_newline_encode_basestring, no_newline_encode_list.
Qed.

(** ** Reading lines *)

Lemma readlines_line (l rest : string) :
  no_newline l = true ->
  readlines (l +:+ String LF rest) = (l +:+ String LF "")%string :: readlines rest.
Proof.
  induction l as [|c l IH]; intros Hl; [reflexivity|].
  simpl in Hl. apply andb_true_iff in Hl as [Hc Hl].
  apply andb_true_iff in Hc as [Hlf Hcr].
  apply negb_true_iff in Hlf, Hcr.
  change (readlines (String c l +:+ String LF rest))
    with (if Ascii.eqb c LF then String LF "" :: readlines (l +:+ String LF rest)
          else if Ascii.eqb c CR then
            match (l +:+ String LF rest)%string with
            | String c' s'' =>
                if Ascii.eqb c' LF then String LF "" :: readlines s''
                else String LF "" :: readlines (l +:+ String LF rest)
            | EmptyString => [String LF ""]
            end
          else
            match readlines (l +:+ String LF rest) with
            | [] => [String c ""]
            | x :: xs => String c x :: xs
            end).
  by rewrite Hlf, Hcr, (IH Hl).
Qed.

Example escape_sample :
  escape (String "001" (String LF "A\B")) = "\u0001\nA\\B".
Proof. reflexivity. Qed.

(** ** Scanning what the writer wrote *)

Lemma lex_escape_char (c : ascii) (t : string) :
  lex true (escape_char c +:+ t) = push (String c "") (lex true t).
Proof. each_ascii c; reflexivity. Qed.

Lemma push_cons (c : ascii) (s : string) (r : option (list token)) :
  push (String c "") (cons (TStr s) <$> r) = cons (TStr (String c s)) <$> r.
Proof. by destruct r. Qed.

Lemma lex_escape (s t : string) :
  lex true (escape s +:+ String dquote t) = cons (TStr s) <$> lex false t.
Proof.
  induction s as [|c s IH]; [reflexivity|].
  cbn [escape]. by rewrite string_app_assoc, lex_escape_char, IH, push_cons.
Qed.

Lemma lex_encode_basestring (s t : string) :
  lex false (encode_basestring s +:+ t) = cons (TStr s) <$> lex false t.
Proof.
  unfold encode_basestring.
  change (lex false (String dquote (escape s +:+ String dquote "") +:+ t))
    with (lex true ((escape s +:+ String dquote "") +:+ t)).
  rewrite string_app_assoc. apply lex_escape.
Qed.

Lemma lex_encode_items (l : list string) (t : string) :
  l <> [] ->
  lex false (encode_items l +:+ t) = app (item_tokens l) <$> lex false t.
Proof.
  induction l as [|s [|s' l] IH]; intros Hne; [done | |].
  - cbn [encode_items item_tokens]. rewrite lex_encode_basestring.
    by destruct (lex false t).
  - change (encode_items (s :: s' :: l))
      with (encode_basestring s +:+ ", " +:+ encode_items (s' :: l))%string.
    rewrite !string_app_assoc, lex_encode_basestring.
    change (lex false (", " +:+ encode_items (s' :: l) +:+ t))
      with (cons Comma <$> lex false (encode_items (s' :: l) +:+ t)).
    rewrite IH by done.
    change (item_tokens (s :: s' :: l))
      with (TStr s :: Comma :: item_tokens (s' :: l)).
    by destruct (lex false t).
Qed.

Lemma lex_encode_list (l : list string) (t : string) :
  lex false (encode_list l +:+ t)
  = (fun ts => LBrack :: item_tokens l ++ RBrack :: ts) <$> lex false t.
Proof.
  destruct l as [|s l].
  - change (lex false (encode_list [] +:+ t))
      with (cons LBrack <$> (cons RBrack <$> lex false t)).
    by destruct (lex false t).
  - unfold encode_list. rewrite !string_app_assoc.
    change (lex false ("[" +:+ encode_items (s :: l) +:+ "]" +:+ t))
      with (cons LBrack <$> lex false (encode_items (s :: l) +:+ "]" +:+ t)).
    rewrite lex_encode_items by done.
    change (lex false ("]" +:+ t)) with (cons RBrack <$> lex false t).
    by destruct (lex false t).
Qed.

Lemma lex_json_dumps (obj : Item) :
  lex false (json_dumps obj +:+ String LF "") = Some (record_tokens obj).
Proof.
  unfold json_dumps. rewrite !string_app_assoc.
  change (lex false ("{" +:+ ?x)) with (cons LBrace <$> lex false x).
  rewrite (lex_encode_basestring "quote").
  change (lex false (": " +:+ ?x)) with (cons Colon <$> lex false x).
  rewrite (lex_encode_basestring (quote obj)).
  change (lex false (", " +:+ ?x)) with (cons Comma <$> lex false x).
  rewrite (lex_encode_basestring "author").
  change (lex false (": " +:+ ?x)) with (cons Colon <$> lex false x).
  rewrite (lex_encode_basestring (author obj)).
  change (lex false (", " +:+ ?x)) with (cons Comma <$> lex false x).
  rewrite (lex_encode_basestring "tags").
  change (lex false (": " +:+ ?x)) with (cons Colon <$> lex false x).
  rewrite lex_encode_list.
  reflexivity.
Qed.

(** ** Parsing what the writer wrote *)

Lemma item_tokens_length (l : list string) :
  List.length l <= List.length (item_tokens l).
Proof.
  induction l as [|s [|s' l] IH]; [done | done |].
  change (item_tokens (s :: s' :: l)) with (TStr s :: Comma :: item_tokens (s' :: l)).
  simpl in *. lia.
Qed.

Lemma parse_elements_items (l : list string) :
  l <> [] ->
  forall n rest,
    List.length l < n ->
    parse_elements n (item_tokens l ++ RBrack :: rest) = Some (JString <$> l, rest).
Proof.
  induction l as [|s [|s' l] IH]; intros Hne n rest Hn; [done | |].
  - destruct n as [|[|n]]; [simpl in Hn; lia.. |]. reflexivity.
  - destruct n as [|[|n]]; [simpl in Hn; lia.. |].
    change (item_tokens (s :: s' :: l)) with (TStr s :: Comma :: item_tokens (s' :: l)).
    change (parse_elements (S (S n))
              ((TStr s :: Comma :: item_tokens (s' :: l)) ++ RBrack :: rest))
      with ('(vs, r'') ← parse_elements (S n) (item_tokens (s' :: l) ++ RBrack :: rest);
            Some (JString s :: vs, r'')).
    rewrite IH by (done || simpl in *; lia). reflexivity.
Qed.

Lemma parse_value_list (l : list string) (n : nat) (rest : list token) :
  S (List.length l) < n ->
  parse_value n (LBrack :: item_tokens l ++ RBrack :: rest)
  = Some (JArray (JString <$> l), rest).
Proof.
  intros Hn. destruct n as [|n]; [lia|].
  destruct l as [|s l]; [reflexivity|].
  assert (He : parse_elements n (item_tokens (s :: l) ++ RBrack :: rest)
               = Some (JString <$> (s :: l), rest))
    by (apply parse_elements_items; [done | lia]).
  destruct l as [|s' l].
  - simpl in *. by rewrite He.
  - change (item_tokens (s :: s' :: l)) with (TStr s :: Comma :: item_tokens (s' :: l)) in *.
    simpl in *. by rewrite He.
Qed.

Lemma parse_value_record (obj : Item) (n : nat) :
  List.length (tags obj) + 6 < n ->
  parse_value n (record_tokens obj)
  = Some (JObject [("quote", JString (quote obj));
                   ("author", JString (author obj));
                   ("tags", JArray (JString <$> tags obj))], []).
Proof.
  intros Hn. do 5 (destruct n as [|n]; [lia|]).
  unfold record_tokens.
  cbn -[parse_value parse_members item_tokens].
  change (parse_value (S (S (S (S (S n))))) (LBrace :: ?ts))
    with ('(ms, r') ← parse_members (S (S (S (S n)))) ts; Some (JObject ms, r')).
  change (parse_members (S (S (S (S n)))) (TStr ?k :: Colon :: TStr ?v :: Comma :: ?ts))
    with ('(ms, r3) ← parse_members (S (S (S n))) ts; Some ((k, JString v) :: ms, r3)).
  change (parse_members (S (S (S n))) (TStr ?k :: Colon :: TStr ?v :: Comma :: ?ts))
    with ('(ms, r3) ← parse_members (S (S n)) ts; Some ((k, JString v) :: ms, r3)).
  change (parse_members (S (S n)) (TStr ?k :: Colon :: ?ts))
    with ('(v, r1) ← parse_value (S n) ts;
          match r1 with
          | Comma :: r2 => '(ms, r3) ← parse_members (S n) r2; Some ((k, v) :: ms, r3)
          | RBrace :: r2 => Some ([(k, v)], r2)
          | _ => None
          end).
  rewrite parse_value_list by lia. reflexivity.
Qed.

Lemma as_strings_items (l : list string) : mapM as_string (JString <$> l) = Some l.
Proof.
  apply mapM_Some. induction l as [|s l IH]; constructor; [reflexivity | exact IH].
Qed.

Lemma item_of_json_record (obj : Item) :
  item_of_json (JObject [("quote", JString (quote obj));
                         ("author", JString (author obj));
                         ("tags", JArray (JString <$> tags obj))])
  = Some obj.
Proof.
  change (item_of_json _)
    with (t ← mapM as_string (JString <$> tags obj);
          Some {| quote := quote obj; author := author obj; tags := t |}).
  rewrite as_strings_items. by destruct obj.
Qed.

Lemma json_loads_tokens (s : string) (ts : list token) (v : json) :
  lex false s = Some ts ->
  (forall n, List.length ts < n -> parse_value n ts = Some (v, [])) ->
  json_loads s = Some v.
Proof.
  intros Hlex Hparse. unfold json_loads. rewrite Hlex.
  cbn [mbind option_bind]. by rewrite Hparse by lia.
Qed.

Lemma json_loads_json_dumps (obj : Item) :
  json_loads (json_dumps obj +:+ String LF "")
  = Some (JObject [("quote", JString (quote obj));
                   ("author", JString (author obj));
                   ("tags", JArray (JString <$> tags obj))]).
Proof.
  apply (json_loads_tokens _ (record_tokens obj)); [apply lex_json_dumps|].
  intros n Hn. apply parse_value_record.
  unfold record_tokens in Hn. rewrite !length_app in Hn. cbn [List.length] in Hn.
  pose proof (item_tokens_length (tags obj)). lia.
Qed.

Lemma parse_line_json_dumps (obj : Item) :
  parse_line (json_dumps obj +:+ String LF "") = Some obj.
Proof.
  unfold parse_line. rewrite json_loads_json_dumps.
  apply item_of_json_record.
Qed.

Lemma readlines_crlf (l rest : string) :
  no_newline l = true ->
  readlines (l +:+ String CR (String LF rest))
  = (l +:+ String LF "")%string :: readlines rest.
Proof.
  induction l as [|c l IH]; intros Hl; [reflexivity|].
  simpl in Hl. apply andb_true_iff in Hl as [Hc Hl].
  apply andb_true_iff in Hc as [Hlf Hcr].
  apply negb_true_iff in Hlf, Hcr.
  change (readlines (String c l +:+ String CR (String LF rest)))
    with (if Ascii.eqb c LF
          then String LF "" :: readlines (l +:+ String CR (String LF rest))
          else if Ascii.eqb c CR then
            match (l +:+ String CR (String LF rest))%string with
            | String c' s'' =>
                if Ascii.eqb c' LF then String LF "" :: readlines s''
                else String LF "" :: readlines (l +:+ String CR (String LF rest))
            | EmptyString => [String LF ""]
            end
          else
            match readlines (l +:+ String CR (String LF rest)) with
            | [] => [String c ""]
            | x :: xs => String c x :: xs
            end).
  by rewrite Hlf, Hcr, (IH Hl).
Qed.

(** ** What the codec accepts *)

Lemma encodable_from_escape_char (c : ascii) (b : bool) (t : string) :
  encodable_from b (escape_char c +:+ t) = encodable_from b (String c t).
Proof. each_ascii c; destruct b; reflexivity. Qed.

Lemma encodable_from_escape (s : string) :
  forall b t, encodable_from b (escape s +:+ t) = encodable_from b (s +:+ t).
Proof.
  induction s as [|c s IH]; intros b t; [reflexivity|].
  cbn [escape].
  rewrite string_app_assoc, encodable_from_escape_char, string_app_cons.
  cbn [encodable_from]. by rewrite IH.
Qed.

Lemma encodable_from_ascii (c : ascii) (b : bool) (t : string) :
  nat_of_ascii c < 128 ->
  encodable_from b (String c t) = encodable_from false t.
Proof.
  intros Hc. cbn [encodable_from].
  replace (160 <=? nat_of_ascii c) with false
    by (symmetry; apply Nat.leb_gt; lia).
  replace (nat_of_ascii c =? 237) with false
    by (symmetry; apply Nat.eqb_neq; lia).
  by rewrite andb_false_r.
Qed.

Lemma encodable_from_app_ascii (s : string) (c : ascii) (t : string) :
  nat_of_ascii c < 128 ->
  forall b,
    encodable_from b (s +:+ String c t)
    = encodable_from b s && encodable_from false t.
Proof.
  intros Hc. induction s as [|x s IH]; intros b.
  - change ("" +:+ String c t)%string with (String c t).
    by rewrite encodable_from_ascii.
  - rewrite string_app_cons. cbn [encodable_from].
    destruct (b && _ && _); [reflexivity | apply IH].
Qed.

Ltac ascii_code := vm_compute; lia.

Lemma encodable_from_encode_basestring (s : string) (b : bool) (t : string) :
  encodable_from b (encode_basestring s +:+ t)
  = encodable s && encodable_from false t.
Proof.
  unfold encode_basestring, encodable.
  rewrite string_app_cons, encodable_from_ascii by ascii_code.
  rewrite string_app_assoc, encodable_from_escape.
  change (String dquote "" +:+ t)%string with (String dquote t).
  by rewrite encodable_from_app_ascii by ascii_code.
Qed.

Lemma encodable_from_two (c1 c2 : ascii) (b : bool) (t : string) :
  nat_of_ascii c1 < 128 -> nat_of_ascii c2 < 128 ->
  encodable_from b (String c1 (String c2 t)) = encodable_from false t.
Proof. intros H1 H2. by rewrite !encodable_from_ascii. Qed.

Lemma encodable_from_encode_items (l : list string) (t : string) :
  l <> [] ->
  forall b,
    encodable_from b (encode_items l +:+ t)
    = forallb encodable l && encodable_from false t.
Proof.
  induction l as [|s [|s' l] IH]; intros Hne b; [done | |].
  - cbn [encode_items forallb]. rewrite encodable_from_encode_basestring.
    by rewrite andb_true_r.
  - change (encode_items (s :: s' :: l))
      with (encode_basestring s +:+ ", " +:+ encode_items (s' :: l))%string.
    rewrite !string_app_assoc, encodable_from_encode_basestring.
    change (", " +:+ ?x)%string with (String "," (String " " x)).
    rewrite encodable_from_two by ascii_code.
    rewrite IH by done. cbn [forallb]. by rewrite !andb_assoc.
Qed.

Lemma encodable_from_encode_list (l : list string) (b : bool) (t : string) :
  encodable_from b (encode_list l +:+ t)
  = forallb encodable l && encodable_from false t.
Proof.
  destruct l as [|s l].
  - change (encode_list [] +:+ t)%string with (String "[" (String "]" t)).
    by rewrite encodable_from_two by ascii_code.
  - unfold encode_list. rewrite !string_app_assoc.
    change ("[" +:+ ?x)%string with (String "[" x).
    rewrite encodable_from_ascii by ascii_code.
    rewrite encodable_from_encode_items by done.
    change ("]" +:+ t)%string with (String "]" t).
    by rewrite encodable_from_ascii by ascii_code.
Qed.

Lemma encodable_json_dumps (obj : Item) :
  encodable (json_dumps obj +:+ String LF "") = item_encodable obj.
Proof.
  unfold json_dumps, item_encodable, encodable at 1.
  rewrite !string_app_assoc.
  change ("{" +:+ ?x)%string with (String "{" x).
  rewrite encodable_from_ascii by ascii_code.
  rewrite (encodable_from_encode_basestring "quote").
  change (": " +:+ ?x)%string with (String ":" (String " " x)).
  rewrite encodable_from_two by ascii_code.
  rewrite (encodable_from_encode_basestring (quote obj)).
  change (", " +:+ ?x)%string with (String "," (String " " x)).
  rewrite encodable_from_two by ascii_code.
  rewrite (encodable_from_encode_basestring "author").
  change (": " +:+ ?x)%string with (String ":" (String " " x)).
  rewrite encodable_from_two by ascii_code.
  rewrite (encodable_from_encode_basestring (author obj)).
  change (", " +:+ ?x)%string with (String "," (String " " x)).
  rewrite encodable_from_two by ascii_code.
  rewrite (encodable_from_encode_basestring "tags").
  change (": " +:+ ?x)%string with (String ":" (String " " x)).
  rewrite encodable_from_two by ascii_code.
  rewrite encodable_from_encode_list.
  change (encodable "quote") with true. change (encodable "author") with true.
  change (encodable "tags") with true.
  change (encodable_from false ("}" +:+ String LF "")) with true.
  cbn [andb]. by rewrite andb_true_r, andb_assoc.
Qed.

(** ** What the writer leaves in the file *)

Lemma translate_newlines_line (sep l : string) :
  no_newline l = true ->
  translate_newlines sep (l +:+ String LF "") = (l +:+ sep)%string.
Proof.
  induction l as [|c l IH]; intros Hl.
  - change (translate_newlines sep ("" +:+ String LF "")) with (sep +:+ "")%string.
    by rewrite string_app_nil_r.
  - simpl in Hl. apply andb_true_iff in Hl as [Hc Hl].
    apply andb_true_iff in Hc as [Hlf _]. apply negb_true_iff in Hlf.
    rewrite !string_app_cons. cbn [translate_newlines]. by rewrite Hlf, (IH Hl).
Qed.

Lemma file_write_line (W : World) (obj : Item) (f : string) :
  file_write W (json_dumps obj +:+ String LF "") f
  = if item_encodable obj
    then (Ret tt, (f +:+ json_dumps obj +:+ linesep W)%string)
    else (Raise (OtherException "UnicodeEncodeError"), f).
Proof.
  unfold file_write. rewrite encodable_json_dumps.
  by rewrite translate_newlines_line by apply no_newline_json_dumps.
Qed.

(** The loop writes the lines of the records before the first one the
    codec refuses, and raises at that record. *)
Lemma write_items_spec (W : World) (items : list Item) :
  forall f,
    write_items W items f
    = (if forallb item_encodable items then Ret tt
       else Raise (OtherException "UnicodeEncodeError"),
       (f +:+ lines_of W (encodable_prefix items))%string).
Proof.
  induction items as [|obj items IH]; intros f.
  - cbn. by rewrite string_app_nil_r.
  - cbn [write_items forallb encodable_prefix]. rewrite file_write_line.
    destruct (item_encodable obj).
    + rewrite IH. cbn [andb lines_of fold_right].
      fold (lines_of W (encodable_prefix items)).
      by rewrite !string_app_assoc.
    + cbn. by rewrite string_app_nil_r.
Qed.

Lemma readlines_lines_of (W : World) (items : list Item) :
  readlines (lines_of W items)
  = (fun obj => json_dumps obj +:+ String LF "")%string <$> items.
Proof.
  induction items as [|obj items IH]; [reflexivity|].
  cbn [lines_of fold_right]. fold (lines_of W items). rewrite fmap_cons, <- IH.
  unfold linesep. destruct (String.eqb (os_name W) "nt").
  - change (String CR (String LF "") +:+ ?x)%string with (String CR (String LF x)).
    apply readlines_crlf, no_newline_json_dumps.
  - change (String LF "" +:+ ?x)%string with (String LF x).
    apply readlines_line, no_newline_json_dumps.
Qed.

Lemma read_items_lines_of (W : World) (items : list Item) :
  read_items (lines_of W items) = Some items.
Proof.
  unfold read_items. rewrite readlines_lines_of. apply mapM_Some.
  induction items as [|obj items IH]; constructor;
    [apply parse_line_json_dumps | exact IH].
Qed.

Lemma encodable_prefix_all (items : list Item) :
  forallb item_encodable items = true -> encodable_prefix items = items.
Proof.
  induction items as [|obj items IH]; [reflexivity|].
  cbn [forallb encodable_prefix]. intros H.
  apply andb_true_iff in H as [-> H]. by rewrite (IH H).
Qed.

Lemma save_to_txt_spec (W : World) (items : list Item) (path : string)
    (fs : gmap string string) :
  save_to_txt W items path fs
  = (if forallb item_encodable items then Ret tt
     else Raise (OtherException "UnicodeEncodeError"),
     <[path := lines_of W (encodable_prefix items)]> fs).
Proof. unfold save_to_txt. by rewrite write_items_spec. Qed.

(** C7, as the code has it.  For records all of whose strings UTF-8 can
    encode, on every platform: [save_to_txt] returns, the file has one
    line for each record, in order, and reading the lines and parsing
    each gives records equal to the given ones field for field, whatever
    else the strings hold and whether the tag lists are empty or not. *)
Theorem save_then_read_back (W : World) (items : list Item) (path : string)
    (fs : gmap string string) :
  forallb item_encodable items = true ->
  exists content,
    save_to_txt W items path fs = (Ret tt, <[path := content]> fs) /\
    List.length (readlines content) = List.length items /\
    read_items content = Some items.
Proof.
  intros Henc. exists (lines_of W items).
  rewrite save_to_txt_spec, Henc, (encodable_prefix_all _ Henc).
  split; [reflexivity|]. split.
  - by rewrite readlines_lines_of, length_fmap.
  - apply read_items_lines_of.
Qed.

Lemma save_then_read_back_witness :
  exists content,
    save_to_txt Scenario.windows [Sample.einstein; Sample.austen]
      "resposta.txt" ∅
    = (Ret tt, <["resposta.txt" := content]> ∅) /\
    List.length (readlines content) = 2 /\
    read_items content = Some [Sample.einstein; Sample.austen].
Proof.
  apply (save_then_read_back Scenario.windows [Sample.einstein; Sample.austen]
           "resposta.txt" ∅).
  reflexivity.
Defined.

(** C7 as the specification words it does not hold: the second of three
    records holds an unpaired surrogate; [save_to_txt] raises
    [UnicodeEncodeError] at it, the file is left with the line of the
    first record only, and reading it back gives one record, not the
    three that were given. *)
Lemma unpaired_surrogate_breaks_round_trip :
  exists content,
    save_to_txt Sample.two_pages
      [Sample.einstein; Scenario.broken; Sample.rowling] "resposta.txt" ∅
    = (Raise (OtherException "UnicodeEncodeError"),
       <["resposta.txt" := content]> ∅) /\
    read_items content = Some [Sample.einstein] /\
    read_items content
      <> Some [Sample.einstein; Scenario.broken; Sample.rowling].
Proof.
  eexists. split; [reflexivity|].
  split; [vm_compute; reflexivity | vm_compute; discriminate].
Qed.

Example save_then_read_back_sample :
  read_items (snd (write_items Sample.two_pages [Sample.einstein; Sample.austen] ""))
  = Some [Sample.einstein; Sample.austen].
Proof. vm_compute. reflexivity. Qed.

(** * Further properties *)

(** ** Session construction *)

(** X1. [_random_user_agent] never lets an [Exception] of the
    [fake_useragent] library through: when the library fails with one,
    the result is one of the three built-in user agents, whatever index
    [random.choice] draws.  Only an exception outside [Exception]
    reaches the caller. *)
Theorem random_user_agent_fallback (W : World) :
  (forall ua, fake_useragent W = Ret ua -> _random_user_agent W = Ret ua) /\
  (forall e, fake_useragent W = Raise e -> is_Exception e = true ->
     exists ua, _random_user_agent W = Ret ua /\ ua ∈ fallback_list) /\
  (forall e, _random_user_agent W = Raise e ->
     fake_useragent W = Raise e /\ is_Exception e = false).
Proof.
  unfold _random_user_agent, Res.try_except. split; [|split].
  - by intros ua ->.
  - intros e -> ->. eexists. split; [reflexivity|].
    apply list_elem_of_In, nth_In. apply Nat.mod_upper_bound. discriminate.
  - intros e. destruct (fake_useragent W) as [ua|e']; [discriminate|].
    destruct (is_Exception e') eqn:He; [discriminate|]. by intros [= <-].
Qed.

Lemma random_user_agent_fallback_witness :
  exists ua,
    _random_user_agent (Scenario.manager_fails "/opt/chromedriver") = Ret ua /\
    ua ∈ fallback_list.
Proof.
  apply (proj1 (proj2 (random_user_agent_fallback
                         (Scenario.manager_fails "/opt/chromedriver")))
           (OtherException "FakeUserAgentError")); reflexivity.
Defined.

Lemma proxy_flag_not_fixed (user_agent p : string) :
  ("--proxy-server=" +:+ p)%string ∉ _chrome_options user_agent None.
Proof.
  unfold _chrome_options. cbn [truthy app].
  rewrite !not_elem_of_cons. repeat split; try apply not_elem_of_nil;
    intros H; apply (f_equal (String.get 2)) in H; vm_compute in H; discriminate.
Qed.

(** X2. Chrome is told to use a proxy exactly when a proxy that is not
    empty is given: [--proxy-server=p] is among the options if and only
    if the proxy is [p] and [p] is not empty; it then comes last, after
    the six options that are always there, the first of which carries
    the user agent. *)
Theorem chrome_options_proxy_flag (user_agent : string)
    (proxy_url : option string) :
  (forall p, ("--proxy-server=" +:+ p)%string ∈ _chrome_options user_agent proxy_url
             <-> proxy_url = Some p /\ p <> "") /\
  (blank proxy_url ->
     _chrome_options user_agent proxy_url = _chrome_options user_agent None) /\
  (forall p, p <> "" ->
     _chrome_options user_agent (Some p)
     = _chrome_options user_agent None ++ [("--proxy-server=" +:+ p)%string]) /\
  List.length (_chrome_options user_agent None) = 6 /\
  head (_chrome_options user_agent proxy_url)
    = Some ("--user-agent=" +:+ user_agent)%string.
Proof.
  assert (Hblank : blank proxy_url ->
            _chrome_options user_agent proxy_url = _chrome_options user_agent None).
  { intros Hb. unfold _chrome_options. by rewrite (truthy_blank _ Hb). }
  assert (Hsome : forall p, p <> "" ->
            _chrome_options user_agent (Some p)
            = _chrome_options user_agent None ++ [("--proxy-server=" +:+ p)%string]).
  { intros p Hp. unfold _chrome_options. rewrite (truthy_Some p Hp).
    by cbn [truthy app]. }
  split; [|split; [exact Hblank | split; [exact Hsome | split; reflexivity]]].
  intros p. split.
  - intros Hin. destruct (truthy proxy_url) eqn:Ht.
    + apply truthy_true_inv in Ht as (q & -> & Hq).
      rewrite (Hsome q Hq), elem_of_app, list_elem_of_singleton in Hin.
      destruct Hin as [Hin | Heq]; [by apply proxy_flag_not_fixed in Hin|].
      apply String.app_inj in Heq. by subst q.
    + apply truthy_false_inv in Ht. rewrite (Hblank Ht) in Hin.
      by apply proxy_flag_not_fixed in Hin.
  - intros [-> Hp]. rewrite (Hsome p Hp), elem_of_app, list_elem_of_singleton.
    by right.
Qed.

Lemma chrome_options_proxy_flag_witness :
  _chrome_options "Mozilla/5.0" (Some "http://proxy.local:3128")
  = _chrome_options "Mozilla/5.0" None ++ ["--proxy-server=http://proxy.local:3128"]
  /\ _chrome_options "Mozilla/5.0" (Some "") = _chrome_options "Mozilla/5.0" None.
Proof.
  split.
  - apply (proj1 (proj2 (proj2 (chrome_options_proxy_flag "Mozilla/5.0"
                                  (Some "http://proxy.local:3128"))))).
    discriminate.
  - apply (proj1 (proj2 (chrome_options_proxy_flag "Mozilla/5.0" (Some "")))).
    by right.
Defined.





Lemma insert_proxies_again (m : Env) (p : string) :
  m !! "HTTP_PROXY" = Some p ->
  m !! "HTTPS_PROXY" = Some p ->
  <["HTTPS_PROXY" := p]> (<["HTTP_PROXY" := p]> m) = m.
Proof.
  intros H1 H2. rewrite (insert_id m "HTTP_PROXY") by done. by apply insert_id.
Qed.

(** X3. Applying the proxy twice is the same as applying it once: the
    second call ends as the first did, with the same exception if there
    was one, and leaves the environment as the first left it.  After a
    call that returns for a proxy that is not empty, [NO_PROXY] is
    set. *)
Theorem apply_proxy_env_idempotent (W : World) (proxy_url : option string)
    (env : Env) :
  _apply_proxy_env W proxy_url (snd (_apply_proxy_env W proxy_url env))
  = _apply_proxy_env W proxy_url env
  /\ (forall p, proxy_url = Some p -> p <> "" ->
        fst (_apply_proxy_env W proxy_url env) = Ret tt ->
        is_Some (snd (_apply_proxy_env W proxy_url env) !! "NO_PROXY")).
Proof.
  split.
  - destruct (truthy proxy_url) eqn:Ht.
    + apply truthy_true_inv in Ht as (p & -> & Hp).
      unfold _apply_proxy_env, setdefault, environ_set.
      rewrite (truthy_Some p Hp). cbn [negb].
      destruct (putenv W "HTTP_PROXY" p) as [[]|e1]; cbn [snd];
        [|reflexivity].
      destruct (putenv W "HTTPS_PROXY" p) as [[]|e2]; cbn [snd];
        [|by rewrite insert_insert_eq].
      repeat rewrite (lookup_insert_ne _ _ "NO_PROXY") by done.
      destruct (env !! "NO_PROXY") as [v|] eqn:Hno; cbn [snd].
      * repeat rewrite (lookup_insert_ne _ _ "NO_PROXY") by done.
        rewrite Hno. f_equal. apply insert_proxies_again.
        -- by simplify_map_eq.
        -- by simplify_map_eq.
      * destruct (putenv W "NO_PROXY" "localhost,127.0.0.1") as [[]|e3] eqn:E3;
          cbn [snd].
        -- repeat rewrite (lookup_insert_ne _ _ "NO_PROXY") by done.
           rewrite lookup_insert_eq. f_equal. apply insert_proxies_again.
           ++ by simplify_map_eq.
           ++ by simplify_map_eq.
        -- repeat rewrite (lookup_insert_ne _ _ "NO_PROXY") by done.
           rewrite Hno. f_equal. apply insert_proxies_again.
           ++ by simplify_map_eq.
           ++ by simplify_map_eq.
    + apply truthy_false_inv in Ht. by rewrite !apply_proxy_env_blank.
  - intros p -> Hp Hret. rewrite (apply_proxy_env_lookup W p _ _ Hp Hret).
    repeat case_decide; try done; eauto.
Qed.

Lemma apply_proxy_env_idempotent_witness :
  is_Some (snd (_apply_proxy_env Sample.two_pages (Some "http://proxy.local:3128")
                  Scenario.env_driver) !! "NO_PROXY").
Proof.
  apply (proj2 (apply_proxy_env_idempotent Sample.two_pages
                  (Some "http://proxy.local:3128") Scenario.env_driver)
           "http://proxy.local:3128");
    [reflexivity | discriminate | reflexivity].
Defined.



(** X5. Every driver [_build_chrome] returns was started with the options
    of [_chrome_options]; it runs without a local service exactly when
    Selenium Manager worked, in which case no local driver is looked at.
    Once the proxy has been applied, an exception of Selenium Manager
    that is no [Exception] reaches the caller at once; an exception
    raised while the proxy is applied reaches the caller before Selenium
    Manager is tried. *)
Theorem build_chrome_driver (W : World) (user_agent : string)
    (proxy_url : option string) (env : Env) :
  (fst (_apply_proxy_env W proxy_url env) = Ret tt ->
   selenium_manager W = Ret tt ->
     fst (_build_chrome W user_agent proxy_url env)
     = Ret {| options := _chrome_options user_agent proxy_url; service := None |}) /\
  (forall driver, fst (_build_chrome W user_agent proxy_url env) = Ret driver ->
     options driver = _chrome_options user_agent proxy_url /\
     (service driver = None <-> selenium_manager W = Ret tt)) /\
  (forall e, fst (_apply_proxy_env W proxy_url env) = Ret tt ->
     selenium_manager W = Raise e -> is_Exception e = false ->
     fst (_build_chrome W user_agent proxy_url env) = Raise e) /\
  (forall e, fst (_apply_proxy_env W proxy_url env) = Raise e ->
     fst (_build_chrome W user_agent proxy_url env) = Raise e).
Proof.
  unfold _build_chrome.
  destruct (_apply_proxy_env W proxy_url env) as [[[]|e0] env'];
    cbn [fst]; (split; [|split; [|split]]); try discriminate.
  - by intros _ ->.
  - intros driver.
    destruct (selenium_manager W) as [[]|e]; [by intros [= <-]|].
    destruct (negb (is_Exception e)); [discriminate|].
    destruct (path_exists W _); [|discriminate].
    destruct (local_chrome W); [|discriminate].
    intros [= <-]. repeat split; discriminate.
  - by intros e _ -> ->.
  - by intros e [= ->].
Qed.

Lemma build_chrome_driver_witness :
  fst (_build_chrome Sample.two_pages "Mozilla/5.0" None Scenario.env_driver)
  = Ret {| options := _chrome_options "Mozilla/5.0" None; service := None |}.
Proof.
  exact (proj1 (build_chrome_driver Sample.two_pages "Mozilla/5.0" None
                  Scenario.env_driver) eq_refl eq_refl).
Defined.

(** X6. When no session can be built, [scrape_all_pages] and
    [scrape_first_page] both raise the exception of [_build_chrome]: no
    document is loaded, nothing is released, and the environment is left
    as [_apply_proxy_env] left it.  So when the failure comes after the
    proxy was applied, as when no driver is found, a proxy that is not
    empty has already been written to the environment. *)
Theorem no_driver_no_session (fuel : nat) (W : World) (url : string)
    (proxy_url : option string) (env : Env) (user_agent : string) (e : exn) :
  _random_user_agent W = Ret user_agent ->
  fst (_build_chrome W user_agent proxy_url env) = Raise e ->
  scrape_all_pages fuel W url proxy_url env
    = Some {| returned := Raise e;
              environ := snd (_apply_proxy_env W proxy_url env);
              pages := [];
              released := 0 |}
  /\ scrape_first_page W url proxy_url env
     = {| returned := Raise e;
          environ := snd (_apply_proxy_env W proxy_url env);
          pages := [];
          released := 0 |}
  /\ (forall p, proxy_url = Some p -> p <> "" ->
        fst (_apply_proxy_env W proxy_url env) = Ret tt ->
        snd (_apply_proxy_env W proxy_url env) !! "HTTP_PROXY" = Some p /\
        snd (_apply_proxy_env W proxy_url env) !! "HTTPS_PROXY" = Some p).
Proof.
  intros Hua Hb. split; [|split].
  - unfold scrape_all_pages. rewrite Hua.
    pose proof (build_chrome_env W user_agent proxy_url env) as Henv.
    destruct (_build_chrome W user_agent proxy_url env) as [r env'].
    simpl in Hb, Henv. by subst r env'.
  - unfold scrape_first_page. rewrite Hua.
    pose proof (build_chrome_env W user_agent proxy_url env) as Henv.
    destruct (_build_chrome W user_agent proxy_url env) as [r env'].
    simpl in Hb, Henv. by subst r env'.
  - intros p -> Hp Hret. rewrite !(apply_proxy_env_lookup W p _ _ Hp Hret).
    by repeat case_decide.
Qed.

Lemma no_driver_no_session_witness :
  scrape_all_pages 0 (Scenario.manager_fails "drivers/chromedriver")
    "https://quotes.toscrape.com/" (Some "http://proxy.local:3128")
    Scenario.env_driver
  = Some {| returned := Raise (RuntimeError driver_not_found);
            environ := snd (_apply_proxy_env
                              (Scenario.manager_fails "drivers/chromedriver")
                              (Some "http://proxy.local:3128")
                              Scenario.env_driver);
            pages := [];
            released := 0 |}.
Proof.
  apply (no_driver_no_session 0 (Scenario.manager_fails "drivers/chromedriver")
           "https://quotes.toscrape.com/" (Some "http://proxy.local:3128")
           Scenario.env_driver _ _ eq_refl eq_refl).
Defined.

(** ** Extraction and the first page *)

Lemma omap_container_length (quotes : list Quote) :
  List.length (omap container_item quotes) <= List.length quotes.
Proof.
  induction quotes as [|q quotes IH]; [done|].
  rewrite omap_container_cons. destruct (read_quote q); simpl; lia.
Qed.

(** X7. The loop over the containers only appends: the records gathered
    before stay as they are, the session is not touched, at most one
    record is added for each container, and the added records follow the
    order of the containers. *)
Theorem for_quotes_only_appends (quotes : list Quote) (st : Store) :
  exists c,
    snd (for_quotes quotes st) = add_items c st /\
    List.length c <= List.length quotes /\
    c `prefix_of` omap container_item quotes.
Proof.
  destruct (for_quotes_outcome quotes st) as (c & Hs & Hp & _).
  exists c. repeat split; [exact Hs | | exact Hp].
  apply prefix_length in Hp. pose proof (omap_container_length quotes). lia.
Qed.

(** X8. An exception other than [NoSuchElementException] raised while a
    container is read ends the extraction of the page: the records of
    the containers before it are kept, the containers after it are not
    read.  [scrape_first_page] then releases the session and, unless the
    exception is a [TimeoutException], raises it to the caller. *)
Theorem foreign_exception_ends_extraction (before after : list Quote)
    (q : Quote) (e : exn) :
  Forall harmless before ->
  read_quote q = Raise e ->
  is_NoSuchElementException e = false ->
  (forall st,
     for_quotes (before ++ q :: after) st
     = (Raise e, add_items (omap container_item before) st)) /\
  (forall W url proxy_url env env' p,
     session_starts W proxy_url env env' ->
     web W 0 url = Ret p ->
     wait_quotes p = Ret tt ->
     div_quotes p = Ret (before ++ q :: after) ->
     scrape_first_page W url proxy_url env
     = {| returned := if is_TimeoutException e
                      then Ret (omap container_item before)
                      else Raise e;
          environ := env';
          pages := [p];
          released := 1 |}).
Proof.
  intros Hb Hq He.
  assert (Hloop : forall st,
            for_quotes (before ++ q :: after) st
            = (Raise e, add_items (omap container_item before) st)).
  { intros st. rewrite for_quotes_app, (for_quotes_harmless _ _ Hb).
    by rewrite for_quotes_cons, Hq, He. }
  split; [exact Hloop|].
  intros W url proxy_url env env' p (ua & drv & Hua & Hbuild) Hw Hwait Hd.
  unfold scrape_first_page. rewrite Hua, Hbuild.
  unfold M.bind, M.lift, driver_get. simpl. rewrite Hw, Hwait, Hd, Hloop.
  simpl. by destruct (is_TimeoutException e).
Qed.

Lemma foreign_exception_ends_extraction_witness :
  scrape_first_page Scenario.stale_site "https://quotes.toscrape.com/" None ∅
  = {| returned := Raise (OtherException "StaleElementReferenceException");
       environ := ∅;
       pages := [Scenario.page_with_stale];
       released := 1 |}.
Proof.
  refine (proj2 (foreign_exception_ends_extraction
                   [Sample.of_item Sample.einstein] [Sample.of_item Sample.rowling]
                   Scenario.stale (OtherException "StaleElementReferenceException")
                   _ eq_refl eq_refl)
            Scenario.stale_site "https://quotes.toscrape.com/" None ∅ ∅
            Scenario.page_with_stale _ eq_refl eq_refl eq_refl).
  - repeat constructor.
  - eexists _, _. split; reflexivity.
Defined.

Lemma scrape_first_page_session (W : World) (url : string)
    (proxy_url : option string) (env env' : Env) :
  session_starts W proxy_url env env' ->
  scrape_first_page W url proxy_url env
  = finish env' (first_page_body W url empty_store).
Proof.
  intros (ua & drv & Hua & Hb). unfold scrape_first_page. by rewrite Hua, Hb.
Qed.

(** The body of [scrape_first_page], whatever the document. *)
Lemma first_page_body_outcome (W : World) (url : string) (st : Store) :
  (exists e, first_page_body W url st = (Raise e, st)) \/
  (exists p c,
     web W (List.length (history st)) url = Ret p /\
     snd (first_page_body W url st) = add_items c (add_pages [p] st) /\
     c `prefix_of` page_records p /\
     (forall v, fst (first_page_body W url st) = Ret v -> c = page_records p)).
Proof.
  unfold first_page_body, M.bind, M.lift, driver_get.
  destruct (web W _ url) as [p|e]; [|left; eauto].
  fold (add_pages [p] st). right. exists p.
  destruct (wait_quotes p) as [[]|e].
  - destruct (div_quotes p) as [quotes|e] eqn:Hd.
    + destruct (for_quotes_outcome quotes (add_pages [p] st)) as (c & Hs & Hp & Hr).
      exists c. unfold page_records. rewrite Hd. repeat split; try done;
        intros [] Hv; eauto.
    + exists []. simpl. rewrite add_items_nil.
      repeat split; [apply prefix_nil|discriminate].
  - exists []. simpl. rewrite add_items_nil.
    repeat split; [apply prefix_nil|discriminate].
Qed.

Lemma finish_returned (env : Env) (r : res unit) (st : Store) (items : list Item) :
  returned (finish env (r, st)) = Ret items -> items = all_items st.
Proof.
  simpl. destruct r as [[]|e]; [congruence|].
  destruct (is_TimeoutException e); congruence.
Qed.

(** X9. Once its session exists, [scrape_first_page] loads at most one
    document, releases the session exactly once on every path, and what
    it returns is an initial part of the records of the document it
    loaded, all of them when no exception cut the extraction short. *)
Theorem scrape_first_page_contract (W : World) (url : string)
    (proxy_url : option string) (env env' : Env) :
  session_starts W proxy_url env env' ->
  released (scrape_first_page W url proxy_url env) = 1 /\
  environ (scrape_first_page W url proxy_url env) = env' /\
  List.length (pages (scrape_first_page W url proxy_url env)) <= 1 /\
  (forall items,
     returned (scrape_first_page W url proxy_url env) = Ret items ->
     items `prefix_of` flat_map page_records
                         (pages (scrape_first_page W url proxy_url env))) /\
  (forall u, fst (first_page_body W url empty_store) = Ret u ->
     returned (scrape_first_page W url proxy_url env)
     = Ret (flat_map page_records
              (pages (scrape_first_page W url proxy_url env)))).
Proof.
  intros Hs. rewrite (scrape_first_page_session _ _ _ _ _ Hs).
  destruct (first_page_body_outcome W url empty_store)
    as [(e & He) | (p & c & Hw & Hst & Hp & Hr)].
  - rewrite He. simpl. repeat split; try lia.
    + intros items. destruct (is_TimeoutException e); [|discriminate].
      by intros [= <-].
    + discriminate.
  - destruct (first_page_body W url empty_store) as [r st]. simpl in Hst, Hr.
    subst st. repeat split; simpl; try lia.
    + intros items Hi. rewrite app_nil_r.
      destruct r as [[]|e]; [|destruct (is_TimeoutException e)];
        by simplify_eq.
    + intros u ->. by rewrite (Hr _ eq_refl), app_nil_r.
Qed.

Lemma scrape_first_page_contract_witness :
  released (scrape_first_page Scenario.stale_site
              "https://quotes.toscrape.com/" None ∅) = 1.
Proof.
  apply (scrape_first_page_contract Scenario.stale_site
           "https://quotes.toscrape.com/" None ∅ ∅).
  eexists _, _. split; reflexivity.
Defined.

(** X10. In [scrape_first_page] a page that does not load in time is no
    error for the caller: when the navigation or the bounded wait raises
    a [TimeoutException], the function returns the empty list and has
    released the session. *)
Theorem first_page_timeout_returns_nothing (W : World) (url : string)
    (proxy_url : option string) (env env' : Env) :
  session_starts W proxy_url env env' ->
  load_times_out W 0 url ->
  returned (scrape_first_page W url proxy_url env) = Ret [] /\
  released (scrape_first_page W url proxy_url env) = 1.
Proof.
  intros Hs Ht. rewrite (scrape_first_page_session _ _ _ _ _ Hs).
  unfold first_page_body, M.bind, M.lift, driver_get. simpl.
  destruct Ht as [Ht | (p & Hp & Ht)].
  - by rewrite Ht.
  - by rewrite Hp, Ht.
Qed.

Lemma first_page_timeout_returns_nothing_witness :
  returned (scrape_first_page (Sample.world (fun _ _ => Ret Sample.slow_page))
              "https://quotes.toscrape.com/" None ∅) = Ret []
  /\ released (scrape_first_page (Sample.world (fun _ _ => Ret Sample.slow_page))
                 "https://quotes.toscrape.com/" None ∅) = 1.
Proof.
  apply (first_page_timeout_returns_nothing
           (Sample.world (fun _ _ => Ret Sample.slow_page))
           "https://quotes.toscrape.com/" None ∅ ∅).
  - eexists _, _. split; reflexivity.
  - right. eexists. split; reflexivity.
Defined.

(** ** The crawl as a whole *)

Lemma iteration_grows (W : World) (current : string) (st : Store) :
  all_items st `prefix_of` all_items (snd (iteration W current st)) /\
  history st `prefix_of` history (snd (iteration W current st)) /\
  quit_calls (snd (iteration W current st)) = quit_calls st.
Proof.
  destruct (iteration_outcome W current st)
    as (Hq & [(e & He) | (p & c & Hs & _)]).
  - rewrite He. simpl. done.
  - rewrite Hq, Hs. simpl. repeat split; by apply prefix_app_r.
Qed.

(** X11. The crawl never takes anything back: when the pagination loop
    ends, the records it started with are an initial part of the records
    it ends with, the documents loaded before are an initial part of the
    documents loaded, and the session has not been released inside the
    loop. *)
Theorem pagination_loop_grows (fuel : nat) (W : World) :
  forall (current : string) (st : Store) (r : res unit) (st' : Store),
    pagination_loop fuel W current st = Some (r, st') ->
    all_items st `prefix_of` all_items st' /\
    history st `prefix_of` history st' /\
    quit_calls st' = quit_calls st.
Proof.
  induction fuel as [|fuel IH]; intros current st r st' Hl; [discriminate|].
  simpl in Hl. destruct (iteration_grows W current st) as (Hi & Hh & Hq).
  destruct (iteration W current st) as [[[next|]|e] st1]; simpl in *.
  - apply IH in Hl as (Hi' & Hh' & Hq').
    repeat split; [by etrans | by etrans | congruence].
  - by injection Hl as <- <-.
  - by injection Hl as <- <-.
Qed.

Lemma pagination_loop_grows_witness :
  all_items empty_store
    `prefix_of` [Sample.einstein; Sample.rowling; Sample.austen] /\
  history empty_store `prefix_of` [Sample.page1; Sample.page2] /\
  0 = quit_calls empty_store.
Proof.
  exact (pagination_loop_grows 2 Sample.two_pages "https://quotes.toscrape.com/"
           empty_store (Ret tt)
           {| all_items := [Sample.einstein; Sample.rowling; Sample.austen];
              history := [Sample.page1; Sample.page2];
              quit_calls := 0 |} eq_refl).
Defined.

(** The first turn of the loop is the body of [scrape_first_page] followed
    by the search for the next page. *)
Lemma pagination_loop_first_turn (fuel : nat) (W : World) (current : string)
    (st : Store) :
  pagination_loop (S fuel) W current st =
  match first_page_body W current st with
  | (Raise e, st1) => Some (Raise e, st1)
  | (Ret _, st1) =>
      match web W (List.length (history st)) current with
      | Raise e => Some (Raise e, st1)
      | Ret p =>
          match seek_next p with
          | Ret (Some next) => pagination_loop fuel W next st1
          | Ret None => Some (Ret tt, st1)
          | Raise e => Some (Raise e, st1)
          end
      end
  end.
Proof.
  simpl. unfold iteration, first_page_body, M.bind, M.lift, driver_get.
  destruct (web W _ current) as [p|e]; [|reflexivity].
  destruct (wait_quotes p) as [[]|e]; [|reflexivity].
  destruct (div_quotes p) as [quotes|e]; [|reflexivity].
  by destruct (for_quotes quotes _) as [[[]|e] st1].
Qed.

(** X12. [scrape_all_pages] begins as [scrape_first_page] does: started
    in the same world at the same address, whenever both return a list,
    the list of [scrape_first_page] is an initial part of the list of
    [scrape_all_pages]. *)
Theorem first_page_is_prefix_of_all_pages (fuel : nat) (W : World)
    (url : string) (proxy_url : option string) (env env' : Env)
    (run : Run) (first all : list Item) :
  session_starts W proxy_url env env' ->
  returned (scrape_first_page W url proxy_url env) = Ret first ->
  scrape_all_pages fuel W url proxy_url env = Some run ->
  returned run = Ret all ->
  first `prefix_of` all.
Proof.
  intros Hs Hfirst Hrun Hall.
  rewrite (scrape_first_page_session _ _ _ _ _ Hs) in Hfirst.
  rewrite (scrape_all_pages_session _ _ _ _ _ _ Hs) in Hrun.
  destruct fuel as [|fuel]; [discriminate|].
  rewrite pagination_loop_first_turn in Hrun.
  destruct (first_page_body W url empty_store) as [r1 st1].
  apply finish_returned in Hfirst. subst first.
  assert (Hend : forall r st, Some (finish env' (r, st)) = Some run ->
                              all = all_items st).
  { intros r st [= <-]. by apply finish_returned in Hall. }
  destruct r1 as [[]|e]; [|by rewrite (Hend _ _ Hrun)].
  destruct (web W _ url) as [p|e]; [|by rewrite (Hend _ _ Hrun)].
  destruct (seek_next p) as [[next|]|e]; try by rewrite (Hend _ _ Hrun).
  destruct (pagination_loop fuel W next st1) as [[r st']|] eqn:Hl; [|discriminate].
  rewrite (Hend _ _ Hrun). by apply pagination_loop_grows in Hl as (Hi & _).
Qed.

Lemma first_page_is_prefix_of_all_pages_witness :
  [Sample.einstein; Sample.rowling]
    `prefix_of` [Sample.einstein; Sample.rowling; Sample.austen].
Proof.
  apply (first_page_is_prefix_of_all_pages 2 Sample.two_pages
           "https://quotes.toscrape.com/" None ∅ ∅
           {| returned := Ret [Sample.einstein; Sample.rowling; Sample.austen];
              environ := ∅;
              pages := [Sample.page1; Sample.page2];
              released := 1 |});
    try reflexivity.
  eexists _, _. split; reflexivity.
Defined.

(** X13. The crawl has no bound of its own and keeps no record of the
    addresses it has seen: in a world where every document loads, is
    extracted and names a next address, the loop does not end, whatever
    the fuel, so [scrape_all_pages] never returns and never releases the
    session. *)
Theorem endless_site_never_ends (W : World) :
  (forall i u, exists p u',
      web W i u = Ret p /\ extracts p /\ seek_next p = Ret (Some u')) ->
  (forall fuel current st, pagination_loop fuel W current st = None) /\
  (forall fuel start_url proxy_url env env',
      session_starts W proxy_url env env' ->
      scrape_all_pages fuel W start_url proxy_url env = None).
Proof.
  intros Hweb.
  assert (Hloop : forall fuel current st, pagination_loop fuel W current st = None).
  { induction fuel as [|fuel IH]; intros current st; [reflexivity|].
    destruct (Hweb (List.length (history st)) current) as (p & u' & Hw & Hx & Hn).
    simpl. by rewrite (iteration_extracts _ _ _ _ Hw Hx), Hn. }
  split; [exact Hloop|].
  intros fuel start_url proxy_url env env' Hs.
  by rewrite (scrape_all_pages_session _ _ _ _ _ _ Hs), Hloop.
Qed.

Lemma endless_site_never_ends_witness :
  scrape_all_pages 1000 Scenario.circular "https://quotes.toscrape.com/" None ∅
  = None.
Proof.
  apply (proj2 (endless_site_never_ends Scenario.circular
                  ltac:(intros i u; exists Scenario.circular_page,
                          "https://quotes.toscrape.com/";
                        split; [reflexivity|]; split; [|reflexivity];
                        split; [reflexivity|]; eexists; split; [reflexivity|];
                        repeat constructor))
           1000 "https://quotes.toscrape.com/" None ∅ ∅).
  eexists _, _. split; reflexivity.
Defined.




(** ** The main block *)

Lemma scrape_all_pages_environ (fuel : nat) (W : World) (start_url : string)
    (proxy_url : option string) (env : Env) (run : Run) (user_agent : string) :
  _random_user_agent W = Ret user_agent ->
  scrape_all_pages fuel W start_url proxy_url env = Some run ->
  environ run = snd (_apply_proxy_env W proxy_url env).
Proof.
  intros Hua. unfold scrape_all_pages. rewrite Hua.
  pose proof (build_chrome_env W user_agent proxy_url env) as Henv.
  destruct (_build_chrome W user_agent proxy_url env) as [[drv|e] env'];
    simpl in Henv; subst env'.
  - destruct (pagination_loop fuel W start_url empty_store) as [[r st]|];
      [|discriminate].
    by intros [= <-].
  - by intros [= <-].
Qed.

Lemma main_inv (fuel : nat) (W : World) (env : Env) (fs : gmap string string)
    (run : Run) (out : res unit * gmap string string) :
  main fuel W env fs = Some (run, out) ->
  scrape_all_pages fuel W "https://quotes.toscrape.com/" (proxy_env env) env
    = Some run /\
  out = match returned run with
        | Ret results => save_to_txt W results "resposta.txt" fs
        | Raise e => (Raise e, fs)
        end.
Proof.
  unfold main.
  destruct (scrape_all_pages _ _ _ _ _) as [run0|]; [|discriminate].
  simpl. destruct (returned run0) eqn:Hr; intros [= <- <-]; by rewrite Hr.
Qed.

(** X15. What the main block does to the environment: the proxy found in
    the environment is written back to it by the session construction.
    With a proxy that is not empty and that [os.environ] accepts again,
    [HTTP_PROXY] and [HTTPS_PROXY] both hold it afterwards, so an
    [HTTPS_PROXY] that differed from the chosen proxy is overwritten;
    with no proxy the environment ends as it began. *)
Theorem main_proxy_environment (fuel : nat) (W : World) (env : Env)
    (fs : gmap string string) (out : res unit * gmap string string)
    (run : Run) (user_agent : string) :
  _random_user_agent W = Ret user_agent ->
  main fuel W env fs = Some (run, out) ->
  environ run = snd (_apply_proxy_env W (proxy_env env) env) /\
  (forall p, proxy_env env = Some p -> p <> "" -> proxy_accepted W p env ->
     environ run !! "HTTP_PROXY" = Some p /\
     environ run !! "HTTPS_PROXY" = Some p /\
     is_Some (environ run !! "NO_PROXY")) /\
  (blank (proxy_env env) -> environ run = env).
Proof.
  intros Hua Hmain. apply main_inv in Hmain as (Hrun & _).
  rewrite (scrape_all_pages_environ _ _ _ _ _ _ _ Hua Hrun).
  split; [reflexivity|]. split.
  - intros p -> Hp Hacc.
    pose proof (apply_proxy_env_returns W p env Hp Hacc) as Hret.
    rewrite !(apply_proxy_env_lookup W p _ _ Hp Hret).
    repeat case_decide; try done; eauto.
  - intros Hb. by rewrite apply_proxy_env_blank.
Qed.

Lemma main_proxy_environment_witness :
  exists run out,
    main 2 Sample.two_pages Scenario.env_two_proxies ∅ = Some (run, out) /\
    environ run !! "HTTP_PROXY" = Some "http://proxy.local:3128" /\
    environ run !! "HTTPS_PROXY" = Some "http://proxy.local:3128" /\
    is_Some (environ run !! "NO_PROXY").
Proof.
  eexists _, _. split; [reflexivity|].
  apply (proj1 (proj2 (main_proxy_environment 2 Sample.two_pages
                         Scenario.env_two_proxies ∅ _ _ "Mozilla/5.0"
                         eq_refl eq_refl)));
    [reflexivity | discriminate | repeat split; reflexivity].
Defined.



(** ** The writer *)

Lemma forallb_item_encodable_app (items1 items2 : list Item) :
  forallb item_encodable (items1 ++ items2)
  = forallb item_encodable items1 && forallb item_encodable items2.
Proof. apply forallb_app. Qed.

Lemma encodable_prefix_app (items1 items2 : list Item) :
  encodable_prefix (items1 ++ items2)
  = if forallb item_encodable items1
    then items1 ++ encodable_prefix items2
    else encodable_prefix items1.
Proof.
  induction items1 as [|obj items1 IH]; [reflexivity|].
  cbn [app encodable_prefix forallb].
  destruct (item_encodable obj); [|reflexivity].
  rewrite IH. cbn [andb]. by destruct (forallb item_encodable items1).
Qed.

Lemma lines_of_app (W : World) (items1 items2 : list Item) :
  lines_of W (items1 ++ items2)
  = (lines_of W items1 +:+ lines_of W items2)%string.
Proof.
  induction items1 as [|obj items1 IH]; [reflexivity|].
  cbn [app lines_of fold_right]. fold (lines_of W (items1 ++ items2)).
  fold (lines_of W items1). by rewrite IH, !string_app_assoc.
Qed.

(** X17. [save_to_txt] replaces the file and touches no other: the text
    written does not depend on what the file held, and the empty list
    gives the empty file.  When the records of a first list can all be
    encoded, the text for two lists one after the other is the text for
    the first followed by the text for the second, and the call ends as
    it does for the second; when they cannot, the second list is never
    written. *)
Theorem save_to_txt_replaces_and_concatenates (W : World)
    (items1 items2 : list Item) (path : string) (fs : gmap string string) :
  (forallb item_encodable items1 = true ->
   exists c1 c2 r,
     save_to_txt W items1 path fs = (Ret tt, <[path := c1]> fs) /\
     save_to_txt W items2 path fs = (r, <[path := c2]> fs) /\
     save_to_txt W (items1 ++ items2) path fs
     = (r, <[path := (c1 +:+ c2)%string]> fs)) /\
  (forallb item_encodable items1 = false ->
   save_to_txt W (items1 ++ items2) path fs = save_to_txt W items1 path fs) /\
  save_to_txt W [] path fs = (Ret tt, <[path := ""]> fs) /\
  (forall old, save_to_txt W items1 path (<[path := old]> fs)
               = save_to_txt W items1 path fs) /\
  (forall other, other <> path ->
     snd (save_to_txt W items1 path fs) !! other = fs !! other).
Proof.
  split; [|split; [|split; [|split]]].
  - intros Henc. eexists _, _, _.
    rewrite !save_to_txt_spec, forallb_item_encodable_app, encodable_prefix_app.
    rewrite Henc, (encodable_prefix_all _ Henc), lines_of_app. cbn [andb].
    repeat split.
  - intros Henc.
    rewrite !save_to_txt_spec, forallb_item_encodable_app, encodable_prefix_app.
    by rewrite Henc.
  - reflexivity.
  - intros old. rewrite !save_to_txt_spec. by rewrite insert_insert_eq.
  - intros other Ho. rewrite save_to_txt_spec. cbn [snd].
    by rewrite lookup_insert_ne.
Qed.

Lemma save_to_txt_replaces_and_concatenates_witness :
  exists c1 c2 r,
    save_to_txt Scenario.windows [Sample.einstein] "resposta.txt" ∅
      = (Ret tt, <["resposta.txt" := c1]> ∅) /\
    save_to_txt Scenario.windows [Scenario.broken] "resposta.txt" ∅
      = (r, <["resposta.txt" := c2]> ∅) /\
    save_to_txt Scenario.windows [Sample.einstein; Scenario.broken]
      "resposta.txt" ∅
      = (r, <["resposta.txt" := (c1 +:+ c2)%string]> ∅).
Proof.
  apply (proj1 (save_to_txt_replaces_and_concatenates Scenario.windows
                  [Sample.einstein] [Scenario.broken] "resposta.txt" ∅)).
  reflexivity.
Defined.

Lemma save_to_txt_returns (W : World) (items : list Item) (path : string)
    (fs : gmap string string) :
  fst (save_to_txt W items path fs) = Ret tt ->
  forallb item_encodable items = true /\
  snd (save_to_txt W items path fs) !! path = Some (lines_of W items).
Proof.
  rewrite save_to_txt_spec. cbn [fst snd].
  destruct (forallb item_encodable items) eqn:Henc; [|discriminate].
  intros _. by rewrite lookup_insert_eq, (encodable_prefix_all _ Henc).
Qed.

(** X18. When [save_to_txt] returns, the written text determines the
    records: two calls that return and leave the same text, be it on
    different platforms, were given the same list of records. *)
Theorem save_to_txt_injective (W1 W2 : World) (items1 items2 : list Item)
    (path : string) (fs1 fs2 : gmap string string) :
  fst (save_to_txt W1 items1 path fs1) = Ret tt ->
  fst (save_to_txt W2 items2 path fs2) = Ret tt ->
  snd (save_to_txt W1 items1 path fs1) !! path
    = snd (save_to_txt W2 items2 path fs2) !! path ->
  items1 = items2.
Proof.
  intros H1 H2 Heq.
  apply save_to_txt_returns in H1 as (_ & H1).
  apply save_to_txt_returns in H2 as (_ & H2).
  rewrite H1, H2 in Heq. injection Heq as Heq.
  pose proof (read_items_lines_of W1 items1) as Hr.
  rewrite Heq, read_items_lines_of in Hr. by injection Hr.
Qed.

Lemma save_to_txt_injective_witness :
  [Sample.einstein] = [Sample.einstein].
Proof.
  apply (save_to_txt_injective Sample.two_pages Sample.two_pages
           [Sample.einstein] [Sample.einstein]
           "resposta.txt" ∅ {[ "resposta.txt" := "old" ]});
    reflexivity.
Defined.

(** X21. [save_to_txt] stops at the first record UTF-8 cannot encode: it
    raises [UnicodeEncodeError], and the file it leaves holds the lines
    of the records before that one and nothing of it or of the records
    after it. *)
Theorem save_to_txt_stops_at_unencodable (W : World)
    (before after : list Item) (bad : Item) (path : string)
    (fs : gmap string string) :
  forallb item_encodable before = true ->
  item_encodable bad = false ->
  save_to_txt W (before ++ bad :: after) path fs
    = (Raise (OtherException "UnicodeEncodeError"),
       <[path := lines_of W before]> fs)
  /\ snd (save_to_txt W (before ++ bad :: after) path fs)
     = snd (save_to_txt W before path fs)
  /\ read_items (lines_of W before) = Some before.
Proof.
  intros Hb Hbad.
  assert (Hp : encodable_prefix (before ++ bad :: after) = before).
  { rewrite encodable_prefix_app, Hb. cbn [encodable_prefix].
    by rewrite Hbad, app_nil_r. }
  rewrite !save_to_txt_spec, Hp, forallb_item_encodable_app, Hb.
  cbn [forallb andb snd]. rewrite Hbad, (encodable_prefix_all _ Hb).
  repeat split. apply read_items_lines_of.
Qed.

Lemma save_to_txt_stops_at_unencodable_witness :
  save_to_txt Sample.two_pages
    ([Sample.einstein] ++ Scenario.broken :: [Sample.rowling]) "resposta.txt" ∅
  = (Raise (OtherException "UnicodeEncodeError"),
     <["resposta.txt" := lines_of Sample.two_pages [Sample.einstein]]> ∅).
Proof.
  apply (save_to_txt_stops_at_unencodable Sample.two_pages [Sample.einstein]
           [Sample.rowling] Scenario.broken "resposta.txt" ∅);
    reflexivity.
Defined.

Lemma string_length_app (a b : string) :
  String.length (a +:+ b) = String.length a + String.length b.
Proof.
  induction a as [|x a IH]; [reflexivity|].
  rewrite string_app_cons. simpl. by rewrite IH.
Qed.

Lemma escape_char_length (c : ascii) :
  if (32 <=? nat_of_ascii c) && negb (Ascii.eqb c dquote)
     && negb (Ascii.eqb c bslash)
  then escape_char c = String c ""
  else 2 <= String.length (escape_char c).
Proof. each_ascii c; vm_compute; solve [reflexivity | lia]. Qed.

Lemma escape_length (s : string) :
  String.length s <= String.length (escape s) /\
  (plain s = false -> String.length s < String.length (escape s)).
Proof.
  induction s as [|c s (IH1 & IH2)]; [split; [done | discriminate]|].
  cbn [escape plain]. rewrite string_length_app. cbn [String.length].
  pose proof (escape_char_length c) as Hc.
  destruct ((32 <=? nat_of_ascii c) && negb (Ascii.eqb c dquote)
            && negb (Ascii.eqb c bslash)).
  - rewrite Hc. cbn [String.length andb]. split; [lia|].
    intros Hp. specialize (IH2 Hp). lia.
  - split; [lia|]. intros _. lia.
Qed.

(** X19. The encoder escapes nothing it need not: a string is written as
    it is, between double quotes, exactly when it holds no control
    character, no double quote and no backslash; in particular text
    outside ASCII is never escaped. *)
Theorem escape_leaves_plain_text (s : string) :
  (escape s = s <-> plain s = true) /\
  (plain s = true ->
     encode_basestring s = String dquote (s +:+ String dquote "")).
Proof.
  assert (Hplain : plain s = true -> escape s = s).
  { induction s as [|c s IH]; [reflexivity|].
    cbn [plain escape]. intros Hp. apply andb_true_iff in Hp as [Hc Hs].
    pose proof (escape_char_length c) as Hl. rewrite Hc in Hl.
    by rewrite Hl, (IH Hs). }
  split; [split; [|exact Hplain]|].
  - intros He. destruct (plain s) eqn:Hp; [reflexivity|].
    apply escape_length in Hp. rewrite He in Hp. lia.
  - intros Hp. unfold encode_basestring. by rewrite (Hplain Hp).
Qed.

Lemma escape_leaves_plain_text_witness :
  encode_basestring "naïve café"
  = String dquote ("naïve café" +:+ String dquote "").
Proof.
  apply (proj2 (escape_leaves_plain_text "naïve café")). reflexivity.
Defined.

Lemma no_control_app (a b : string) :
  no_control (a +:+ b) = no_control a && no_control b.
Proof.
  induction a as [|x a IH]; [reflexivity|].
  rewrite string_app_cons. cbn [no_control]. by rewrite IH, andb_assoc.
Qed.

Lemma no_control_escape_char (c : ascii) : no_control (escape_char c) = true.
Proof. each_ascii c; reflexivity. Qed.

Lemma no_control_escape (s : string) : no_control (escape s) = true.
Proof.
  induction s as [|c s IH]; [reflexivity|].
  cbn [escape]. by rewrite no_control_app, no_control_escape_char, IH.
Qed.

Lemma no_control_encode_basestring (s : string) :
  no_control (encode_basestring s) = true.
Proof.
  unfold encode_basestring. cbn [no_control].
  rewrite no_control_app, no_control_escape. reflexivity.
Qed.

Lemma no_control_encode_items (l : list string) :
  no_control (encode_items l) = true.
Proof.
  induction l as [|s [|s' l] IH]; [reflexivity | apply no_control_encode_basestring |].
  change (encode_items (s :: s' :: l))
    with (encode_basestring s +:+ ", " +:+ encode_items (s' :: l))%string.
  by rewrite !no_control_app, no_control_encode_basestring, IH.
Qed.

Lemma no_control_json_dumps (obj : Item) : no_control (json_dumps obj) = true.
Proof.
  unfold json_dumps.
  rewrite !no_control_app, !no_control_encode_basestring.
  destruct (tags obj) as [|s l]; [reflexivity|].
  unfold encode_list. by rewrite !no_control_app, no_control_encode_items.
Qed.

(** X20. The file [save_to_txt] leaves is, record after record up to the
    first record UTF-8 cannot encode, the JSON text of the record
    followed by [os.linesep]: a line feed, or a carriage return and a
    line feed on Windows.  The JSON text of a record holds no character
    below U+0020, whatever the scraped strings contain, so the only such
    characters of the file are those of its line ends. *)
Theorem written_file_has_no_control_character (W : World) (items : list Item)
    (path : string) (fs : gmap string string) :
  snd (save_to_txt W items path fs) !! path
  = Some (fold_right (fun obj rest => json_dumps obj +:+ linesep W +:+ rest)%string
            "" (encodable_prefix items))
  /\ (linesep W = String LF "" \/ linesep W = String CR (String LF ""))
  /\ Forall (fun obj => no_control (json_dumps obj) = true) items.
Proof.
  split; [|split].
  - rewrite save_to_txt_spec. cbn [snd]. by rewrite lookup_insert_eq.
  - unfold linesep. destruct (String.eqb (os_name W) "nt"); [by right | by left].
  - apply Forall_forall. intros obj _. apply no_control_json_dumps.
Qed.
